(** * Dharma reasoning controller: iteration, termination and feedback injection

  Shallow embedding of
    - lib/dharma.ts   ([mean], [generateSimpleFeedback], [generateDharmaFeedback]),
    - lib/schema.ts   ([dharmaSchema]) and
    - app/(preview)/api/chat/route.ts ([singleStepSchema], the [POST] handler).

  Conventions of the embedding.
    - A JavaScript number that carries a score or a threshold is a rational
      ([Q]) and the handler computes on it in exact arithmetic; the rounding
      of double precision is modelled in [Double], for [mean].  The step
      counter and the step ceiling are counts ([nat]).
    - A string is a sequence of one-byte characters: on ASCII text its
      length is the number of UTF-16 code units JavaScript counts.
    - A promise that rejects, or a call that throws, is [None].
    - The language model behind [generateText], and the built-ins
      [String.prototype.match] + [JSON.parse], [String.prototype.trim] and
      [Number.prototype.toFixed], are parameters of the model: nothing is
      assumed about what they answer.
    - Wall-clock values (latency, start time) and the random run id are
      left out of the telemetry records. *)

From Stdlib Require Import QArith Qround Lqa Bool Arith Lia List String Ascii
  DecimalString.
From Stdlib Require Floats.
Import ListNotations.
Open Scope string_scope.
Set Warnings "-register-all".

(** ** JavaScript values used by the handler *)

Module Js.

(** [a < b] and [a >= b] on numbers. *)
Definition ltb (a b : Q) : bool := negb (Qle_bool b a).
Definition geb (a b : Q) : bool := Qle_bool b a.

(** A string in a condition: the empty string is falsy. *)
Definition truthy (s : string) : bool :=
  match s with
  | EmptyString => false
  | String _ _ => true
  end.

(** The line feed of a template literal that spans several lines. *)
Definition nl : string := String (ascii_of_nat 10) EmptyString.

(** A count interpolated into a template literal. *)
Definition showNat (n : nat) : string :=
  NilEmpty.string_of_uint (Nat.to_uint n).

(** [Array.prototype.join]. *)
Fixpoint join (sep : string) (l : list string) : string :=
  match l with
  | [] => ""
  | [s] => s
  | s :: rest => s ++ sep ++ join sep rest
  end.

(** [Array.prototype.map] with the index passed to the callback. *)
Fixpoint mapi_from {A B : Type} (i : nat) (f : A -> nat -> B) (l : list A)
  : list B :=
  match l with
  | [] => []
  | a :: rest => f a i :: mapi_from (S i) f rest
  end.

Definition mapi {A B : Type} (f : A -> nat -> B) (l : list A) : list B :=
  mapi_from 0 f l.

(** The value produced by [JSON.parse], or written as an object literal. *)
Inductive json : Type :=
| JNull
| JBool (b : bool)
| JNum (q : Q)
| JStr (s : string)
| JArr (items : list json)
| JObj (props : list (string * json)).

(** Property read on an object: the first binding of the key. *)
Fixpoint prop (k : string) (props : list (string * json)) : option json :=
  match props with
  | [] => None
  | (k', v) :: rest => if String.eqb k k' then Some v else prop k rest
  end.

(** The built-ins the handler calls and this development does not define. *)
Record Builtins : Type := {
  (** [text.match(/\{[\s\S]*\}/)] followed by [JSON.parse] of the match:
      [None] when nothing matches or [JSON.parse] throws. *)
  extractJson : string -> option json;
  (** [String.prototype.trim]. *)
  trim : string -> string;
  (** [Number.prototype.toFixed]. *)
  toFixed : Q -> nat -> string
}.

End Js.

(** ** lib/schema.ts *)

Module Schema.
Import Js.

(** [z.infer<typeof dharmaSchema>]. *)
Record DharmaEvaluation : Type := {
  mindfulness : Q;
  emptiness : Q;
  nonDuality : Q;
  boundlessCare : Q;
  rationale : string
}.

Definition bind {A B : Type} (o : option A) (f : A -> option B) : option B :=
  match o with
  | Some a => f a
  | None => None
  end.

Notation "x <- o ;; k" := (bind o (fun x => k))
  (at level 61, o at next level, right associativity).

(** [z.string()] on a property that may be missing. *)
Definition z_string (v : option json) : option string :=
  match v with
  | Some (JStr s) => Some s
  | _ => None
  end.

(** [z.number().min(lo).max(hi)]. *)
Definition z_number_min_max (lo hi : Q) (v : option json) : option Q :=
  match v with
  | Some (JNum q) => if Qle_bool lo q && Qle_bool q hi then Some q else None
  | _ => None
  end.

(** [dharmaSchema.parse]: [None] stands for the thrown [ZodError]. *)
Definition dharmaSchema_parse (v : option json) : option DharmaEvaluation :=
  match v with
  | Some (JObj props) =>
      m <- z_number_min_max 0 1 (prop "mindfulness" props) ;;
      e <- z_number_min_max 0 1 (prop "emptiness" props) ;;
      n <- z_number_min_max 0 1 (prop "nonDuality" props) ;;
      b <- z_number_min_max 0 1 (prop "boundlessCare" props) ;;
      r <- z_string (prop "rationale" props) ;;
      Some {| mindfulness := m; emptiness := e; nonDuality := n;
              boundlessCare := b; rationale := r |}
  | _ => None
  end.

End Schema.

(** ** lib/dharma.ts *)

Module Dharma.
Import Js Schema.

Record DharmaScores : Type := {
  s_mindfulness : Q;
  s_emptiness : Q;
  s_nonDuality : Q;
  s_boundlessCare : Q
}.

(** A [DharmaScores & { rationale }] read as a [DharmaScores]. *)
Definition scoresOf (d : DharmaEvaluation) : DharmaScores :=
  {| s_mindfulness := mindfulness d;
     s_emptiness := emptiness d;
     s_nonDuality := nonDuality d;
     s_boundlessCare := boundlessCare d |}.

Record ScoreHistoryEntry : Type := {
  entry_step : nat;
  entry_scores : DharmaScores;
  entry_mean : Q;
  entry_content : string
}.

(** [mean] in exact arithmetic: the value of the expression before any
    rounding.  What double precision makes of it is [Double.mean], below. *)
Definition mean (s : DharmaScores) : Q :=
  (s_mindfulness s + s_emptiness s + s_nonDuality s + s_boundlessCare s) / 4.

Definition generateSimpleFeedback (s : DharmaScores) (target : Q) : string :=
  let suggestions : list string :=
    ((if ltb (s_mindfulness s) target then
       ["Strengthen mindfulness: explicitly note assumptions and limitations."]
     else [])
    ++ (if ltb (s_emptiness s) target then
       ["Strengthen emptiness: hold conclusions more lightly, acknowledge uncertainty."]
     else [])
    ++ (if ltb (s_nonDuality s) target then
       ["Strengthen non-duality: consider complementary perspectives and interconnections."]
     else [])
    ++ (if ltb (s_boundlessCare s) target then
       ["Strengthen boundless care: expand consideration of all stakeholders and potential harms."]
     else []))%list
  in
  if (List.length suggestions =? 0)%nat
  then "Strong alignment across all principles. Maintain this contemplative depth."
  else join " " suggestions.

(** The feedback model: [generateText] on the prompt that
    [generateDharmaFeedback] builds from its three arguments.  [None] is a
    call that fails. *)
Definition FeedbackModel : Type :=
  DharmaEvaluation -> list ScoreHistoryEntry -> Q -> option string.

Definition generateDharmaFeedback (js : Builtins) (llm : FeedbackModel)
    (currentScores : DharmaEvaluation) (scoreHistory : list ScoreHistoryEntry)
    (target : Q) : string :=
  match llm currentScores scoreHistory target with
  | Some text => trim js text
  | None => generateSimpleFeedback (scoresOf currentScores) target
  end.

End Dharma.

(** ** Double precision: the arithmetic of [mean] as JavaScript computes it

    A finite double is a rational; [+] and [/] on doubles answer the double
    nearest to the exact result, a tie going to the even significand.  The
    rounding is written here for results of magnitude below 2^1024 (beyond
    it the result is an infinity, which no sum of sub-scores reaches). *)

Module Double.
Import Dharma.

(** The nearest integer, a tie going to the even one. *)
Definition roundHalfEven (q : Q) : Z :=
  let f := Qfloor q in
  match Qcompare (q - inject_Z f) (1 # 2) with
  | Lt => f
  | Gt => (f + 1)%Z
  | Eq => if Z.even f then f else (f + 1)%Z
  end.

(** Every finite double is a multiple of 2^-1074, the least positive one. *)
Definition unitsPerOne : Z := 2 ^ 1074.

(** The distance between neighbouring doubles, in units of 2^-1074, around
    a value whose integer part in these units is [F]: one unit up to 2^53
    units (the subnormal range and the first normal binade), and from there
    on 2^(log2 F - 52), that is a significand of 53 bits. *)
Definition spacing (F : Z) : Z := 2 ^ Z.max 0 (Z.log2 F - 52).

(** The double nearest to the non-negative value of [t] units, in units. *)
Definition roundUnits (t : Q) : Z :=
  (roundHalfEven (t / inject_Z (spacing (Qfloor t)))
   * spacing (Qfloor t))%Z.

(** The double nearest to [q]. *)
Definition round (q : Q) : Q :=
  match Qcompare q 0 with
  | Lt =>
      - (inject_Z (roundUnits (- q * inject_Z unitsPerOne))
         / inject_Z unitsPerOne)
  | _ => inject_Z (roundUnits (q * inject_Z unitsPerOne))
         / inject_Z unitsPerOne
  end.

(** [a + b] and [a / b] on doubles. *)
Definition add (a b : Q) : Q := round (a + b).
Definition div (a b : Q) : Q := round (a / b).

(** [mean] of lib/dharma.ts in double precision:
    [(mindfulness + emptiness + nonDuality + boundlessCare) / 4], the three
    additions from left to right and then the division, each rounded. *)
Definition mean (s : DharmaScores) : Q :=
  div (add (add (add (s_mindfulness s) (s_emptiness s)) (s_nonDuality s))
           (s_boundlessCare s))
      4.

(** The double a decimal literal or a JSON number denotes. *)
Definition literal (q : Q) : Q := round q.

End Double.

(** ** The binary64 numbers of the proof assistant

    The same arithmetic on the primitive floating-point numbers, to compare
    [Double] with on explicit inputs. *)

Module Binary64.
Import Dharma.

(** The rational value of a finite double. *)
Definition ofSpecFloat (f : SpecFloat.spec_float) : option Q :=
  match f with
  | SpecFloat.S754_zero _ => Some 0
  | SpecFloat.S754_finite sign m e =>
      Some (Qred ((if sign then -1 else 1) * inject_Z (Zpos m) * Qpower 2 e))
  | _ => None
  end.

(** The positive double of significand [m] and exponent [e]: m * 2^e. *)
Definition binary64 (m : positive) (e : Z) : PrimFloat.float :=
  FloatOps.SF2Prim (SpecFloat.S754_finite false m e).

Definition valueOf (x : PrimFloat.float) : option Q :=
  ofSpecFloat (FloatOps.Prim2SF x).

(** [(a + b + c + d) / 4] on primitive floats; 4 is 2^52 * 2^-50. *)
Definition mean (a b c d : PrimFloat.float) : PrimFloat.float :=
  PrimFloat.div (PrimFloat.add (PrimFloat.add (PrimFloat.add a b) c) d)
                (binary64 4503599627370496 (-50)).

End Binary64.

(** ** app/(preview)/api/chat/route.ts *)

Module Route.
Import Js Schema Dharma.

(** Configuration read from the environment when the module is loaded. *)
Record Config : Type := {
  DHARMA_TARGET : Q;
  DHARMA_MAX_STEPS : nat
}.

Definition MINIMUM_STEPS : nat := 4.

Record Message : Type := {
  role : string;
  content : string
}.

(** [z.infer<typeof singleStepSchema>]. *)
Record SingleStep : Type := {
  step_title : string;
  step_content : string;
  step_dharma : DharmaEvaluation
}.

(** [singleStepSchema.parse]: [None] stands for the thrown [ZodError]. *)
Definition singleStepSchema_parse (v : json) : option SingleStep :=
  match v with
  | JObj props =>
      t <- z_string (prop "title" props) ;;
      c <- z_string (prop "content" props) ;;
      d <- dharmaSchema_parse (prop "dharma" props) ;;
      Some {| step_title := t; step_content := c; step_dharma := d |}
  | _ => None
  end.

Inductive NextStep : Type := next_continue | next_finalAnswer.

Inductive TerminationReason : Type :=
| max_steps_reached
| minimum_steps_required
| target_reached
| continuing.

Record DharmaBreakdown : Type := {
  bd_mindfulness : string;
  bd_emptiness : string;
  bd_nonDuality : string;
  bd_boundlessCare : string
}.

(** The step sent to the frontend: the validated step and its display data. *)
Record EnrichedStep : Type := {
  es_title : string;
  es_content : string;
  es_dharma : DharmaEvaluation;
  es_nextStep : NextStep;
  es_dharmaScore : string;
  es_dharmaBreakdown : DharmaBreakdown;
  es_stepIndex : nat;
  es_maxSteps : nat;
  es_serverFeedback : string
}.

(** What [dataStream.writeData] is given. *)
Inductive StreamData : Type :=
| ReasoningStepData (step : EnrichedStep)
| TextData (text : string).

(** The record logged once per completed step. *)
Record StepTelemetry : Type := {
  tl_stepIndex : nat;
  tl_maxSteps : nat;
  tl_modelSelfScore : string;
  tl_modelScoreBreakdown : DharmaBreakdown;
  tl_targetThreshold : Q;
  tl_targetReached : bool;
  tl_terminationReason : TerminationReason;
  tl_shouldContinue : bool;
  tl_title : string;
  tl_feedbackLength : nat
}.

Inductive ConsoleRecord : Type :=
| LogReasoningStep (t : StepTelemetry)
| LogStepError (stepIndex : nat)
| LogSynthesisError.

(** A call to an external model, with the arguments it was given. *)
Inductive ServiceCall : Type :=
| GenerateStepCall (contextMessages : list Message)
| FeedbackCall (currentScores : DharmaEvaluation)
    (scoreHistory : list ScoreHistoryEntry) (target : Q)
| SynthesisCall (synthesisMessages : list Message).

(** The external models.  The step model and the synthesis model are
    [generateText] on a message list, answering [result.text]; [None] is a
    call that fails.  Within one session no two calls carry the same
    arguments (the instruction names the step, the history grows), so a
    function of the arguments covers a model that may answer differently
    each time it is asked. *)
Record Services : Type := {
  stepModel : list Message -> option string;
  feedbackModel : FeedbackModel;
  synthesisModel : list Message -> option string
}.

(** The variables of [execute]: [scoreHistory], the three fields of
    [iterationState], [shouldContinue], what was written to [dataStream] and
    to the console, and the record of the model calls made so far, each with
    the value of [stepIndex] at the call. *)
Record Session : Type := {
  scoreHistory : list ScoreHistoryEntry;
  stepIndex : nat;
  allSteps : list EnrichedStep;
  previousFeedback : string;
  shouldContinue : bool;
  dataStream : list StreamData;
  console : list ConsoleRecord;
  calls : list (nat * ServiceCall)
}.

Section Handler.

Variable cfg : Config.
Variable js : Builtins.
Variable svc : Services.
Variable messages : list Message.

Definition initialSession : Session :=
  {| scoreHistory := [];
     stepIndex := 0;
     allSteps := [];
     previousFeedback := "";
     shouldContinue := true;
     dataStream := [];
     console := [];
     calls := [] |}.

Definition feedbackNote (stepIndex : nat) (previousFeedback : string)
  : Message :=
  {| role := "assistant";
     content := "[Server Feedback from Step " ++ showNat (stepIndex - 1)
                ++ "]: " ++ previousFeedback |}.

Definition stepInstruction (stepIndex : nat) (previousFeedback : string)
  : Message :=
  {| role := "user";
     content :=
       "Generate reasoning step " ++ showNat stepIndex ++ " of "
       ++ showNat (DHARMA_MAX_STEPS cfg) ++ ". " ++ nl
       ++ "Focus on ONE specific aspect, method, or perspective. " ++ nl
       ++ "Be thorough in your analysis and evaluate your reasoning against the dharma principles."
       ++ nl
       ++ (if truthy previousFeedback
           then nl ++ nl
                ++ "Incorporate the server feedback from your previous step."
           else "") |}.

Definition contextMessages (stepIndex : nat) (previousFeedback : string)
  : list Message :=
  (messages
   ++ (if (1 <? stepIndex)%nat && truthy previousFeedback
       then [feedbackNote stepIndex previousFeedback]
       else [])
   ++ [stepInstruction stepIndex previousFeedback])%list.

(** The object built in the [catch (parseError)] branch. *)
Definition fallbackStepData (stepIndex : nat) (text : string) : json :=
  JObj [ ("title", JStr ("Reasoning Step " ++ showNat stepIndex));
         ("content", JStr text);
         ("dharma",
           JObj [ ("mindfulness", JNum (1 # 2));
                  ("emptiness", JNum (1 # 2));
                  ("nonDuality", JNum (1 # 2));
                  ("boundlessCare", JNum (1 # 2));
                  ("rationale", JStr "Auto-generated (parsing failed)") ]) ].

(** The inner [try]/[catch]: the extracted JSON, or the fallback object. *)
Definition parseStepData (stepIndex : nat) (text : string) : json :=
  match extractJson js text with
  | Some v => v
  | None => fallbackStepData stepIndex text
  end.

(** The part of the outer [try] that can throw: the call to the step model
    and the schema validation.  [None] leads to the outer [catch]. *)
Definition generateValidatedStep (stepIndex : nat)
    (context : list Message) : option SingleStep :=
  text <- stepModel svc context ;;
  singleStepSchema_parse (parseStepData stepIndex text).

(** The termination logic: the new [shouldContinue] and the reason. *)
Definition terminationLogic (stepIndex : nat) (modelDharmaScore : Q)
  : bool * TerminationReason :=
  if (DHARMA_MAX_STEPS cfg <=? stepIndex)%nat then (false, max_steps_reached)
  else if (stepIndex <? MINIMUM_STEPS)%nat then (true, minimum_steps_required)
  else if geb modelDharmaScore (DHARMA_TARGET cfg) then (false, target_reached)
  else (true, continuing).

Definition breakdown (d : DharmaEvaluation) : DharmaBreakdown :=
  {| bd_mindfulness := toFixed js (mindfulness d) 2;
     bd_emptiness := toFixed js (emptiness d) 2;
     bd_nonDuality := toFixed js (nonDuality d) 2;
     bd_boundlessCare := toFixed js (boundlessCare d) 2 |}.

Definition historyEntry (stepIndex : nat) (validatedStep : SingleStep)
  : ScoreHistoryEntry :=
  {| entry_step := stepIndex;
     entry_scores :=
       {| s_mindfulness := mindfulness (step_dharma validatedStep);
          s_emptiness := emptiness (step_dharma validatedStep);
          s_nonDuality := nonDuality (step_dharma validatedStep);
          s_boundlessCare := boundlessCare (step_dharma validatedStep) |};
     entry_mean := mean (scoresOf (step_dharma validatedStep));
     entry_content := step_content validatedStep |}.

Definition enrichStep (stepIndex : nat) (validatedStep : SingleStep)
    (continue : bool) (llmFeedback : string) : EnrichedStep :=
  {| es_title := step_title validatedStep;
     es_content := step_content validatedStep;
     es_dharma := step_dharma validatedStep;
     es_nextStep := if continue then next_continue else next_finalAnswer;
     es_dharmaScore :=
       toFixed js (mean (scoresOf (step_dharma validatedStep))) 3;
     es_dharmaBreakdown := breakdown (step_dharma validatedStep);
     es_stepIndex := stepIndex;
     es_maxSteps := DHARMA_MAX_STEPS cfg;
     es_serverFeedback := llmFeedback |}.

Definition telemetry (stepIndex : nat) (validatedStep : SingleStep)
    (decision : bool * TerminationReason) (llmFeedback : string)
  : StepTelemetry :=
  {| tl_stepIndex := stepIndex;
     tl_maxSteps := DHARMA_MAX_STEPS cfg;
     tl_modelSelfScore :=
       toFixed js (mean (scoresOf (step_dharma validatedStep))) 3;
     tl_modelScoreBreakdown := breakdown (step_dharma validatedStep);
     tl_targetThreshold := DHARMA_TARGET cfg;
     tl_targetReached :=
       geb (mean (scoresOf (step_dharma validatedStep))) (DHARMA_TARGET cfg);
     tl_terminationReason := snd decision;
     tl_shouldContinue := fst decision;
     tl_title := step_title validatedStep;
     tl_feedbackLength := String.length llmFeedback |}.

(** One pass through the body of the [while] loop. *)
Definition iteration (st : Session) : Session :=
  let stepIndex' := S (stepIndex st) in
  let context := contextMessages stepIndex' (previousFeedback st) in
  let calls' := (calls st ++ [(stepIndex', GenerateStepCall context)])%list in
  match generateValidatedStep stepIndex' context with
  | Some validatedStep =>
      let modelDharmaScore := mean (scoresOf (step_dharma validatedStep)) in
      let scoreHistory' :=
        (scoreHistory st ++ [historyEntry stepIndex' validatedStep])%list in
      let llmFeedback :=
        generateDharmaFeedback js (feedbackModel svc)
          (step_dharma validatedStep) (removelast scoreHistory')
          (DHARMA_TARGET cfg) in
      let decision := terminationLogic stepIndex' modelDharmaScore in
      let enrichedStep :=
        enrichStep stepIndex' validatedStep (fst decision) llmFeedback in
      {| scoreHistory := scoreHistory';
         stepIndex := stepIndex';
         allSteps := (allSteps st ++ [enrichedStep])%list;
         previousFeedback := llmFeedback;
         shouldContinue := fst decision;
         dataStream := (dataStream st ++ [ReasoningStepData enrichedStep])%list;
         console :=
           (console st
            ++ [LogReasoningStep
                  (telemetry stepIndex' validatedStep decision llmFeedback)])%list;
         calls :=
           (calls'
            ++ [(stepIndex',
                 FeedbackCall (step_dharma validatedStep)
                   (removelast scoreHistory') (DHARMA_TARGET cfg))])%list |}
  | None =>
      {| scoreHistory := scoreHistory st;
         stepIndex := stepIndex';
         allSteps := allSteps st;
         previousFeedback := previousFeedback st;
         shouldContinue := false;
         dataStream := dataStream st;
         console := (console st ++ [LogStepError stepIndex'])%list;
         calls := calls' |}
  end.

Definition loopCondition (st : Session) : bool :=
  shouldContinue st && (stepIndex st <? DHARMA_MAX_STEPS cfg)%nat.

(** The [while] loop, run for at most [fuel] passes: [None] when the fuel
    runs out before the loop condition turns false. *)
Fixpoint while (fuel : nat) (st : Session) : option Session :=
  if loopCondition st then
    match fuel with
    | O => None
    | S fuel' => while fuel' (iteration st)
    end
  else Some st.

Definition stepListing (allSteps : list EnrichedStep) : list string :=
  mapi (fun step idx =>
          nl ++ "Step " ++ showNat (idx + 1) ++ ": " ++ es_title step ++ nl
          ++ es_content step ++ nl)
       allSteps.

Definition synthesisPrompt (stepIndex : nat) (allSteps : list EnrichedStep)
  : string :=
  "You have completed " ++ showNat stepIndex ++ " reasoning steps:" ++ nl
  ++ nl
  ++ join nl (stepListing allSteps) ++ nl
  ++ nl
  ++ "Now provide a clear, concise final answer that synthesizes all of your reasoning. "
  ++ nl
  ++ "Be direct and actionable. This is your final response to the user.".

Definition synthesisMessages (st : Session) : list Message :=
  (messages
   ++ [ {| role := "assistant";
           content := synthesisPrompt (stepIndex st) (allSteps st) |};
        {| role := "user";
           content :=
             "Please provide your final synthesized answer based on all reasoning steps." |} ])%list.

Definition synthesisErrorText : string :=
  "Error generating final synthesis. Please review the reasoning steps above.".

(** The code after the loop: the synthesis call and the text event. *)
Definition synthesis (st : Session) : Session :=
  let request := synthesisMessages st in
  let calls' := (calls st ++ [(stepIndex st, SynthesisCall request)])%list in
  match synthesisModel svc request with
  | Some text =>
      {| scoreHistory := scoreHistory st;
         stepIndex := stepIndex st;
         allSteps := allSteps st;
         previousFeedback := previousFeedback st;
         shouldContinue := shouldContinue st;
         dataStream := (dataStream st ++ [TextData text])%list;
         console := console st;
         calls := calls' |}
  | None =>
      {| scoreHistory := scoreHistory st;
         stepIndex := stepIndex st;
         allSteps := allSteps st;
         previousFeedback := previousFeedback st;
         shouldContinue := shouldContinue st;
         dataStream := (dataStream st ++ [TextData synthesisErrorText])%list;
         console := (console st ++ [LogSynthesisError])%list;
         calls := calls' |}
  end.

(** The [execute] callback of [POST]. *)
Definition execute (fuel : nat) : option Session :=
  st <- while fuel initialSession ;;
  Some (synthesis st).

(** The loop makes at most [DHARMA_MAX_STEPS] passes, so this fuel is never
    the reason for stopping (see [while_enough_fuel]). *)
Definition POST : option Session := execute (DHARMA_MAX_STEPS cfg).

End Handler.

End Route.

(** ** app/(preview)/page.tsx: what the page reads from the data stream *)

Module Page.
Import Js Schema Dharma Route.

(** [data?.filter(item => item.type === "reasoning-step")
          .map(item => item.content) || []]; [None] is [data] undefined. *)
Definition reasoningSteps (data : option (list StreamData))
  : list EnrichedStep :=
  match data with
  | Some items =>
      flat_map (fun item =>
                  match item with
                  | ReasoningStepData step => [step]
                  | TextData _ => []
                  end)
               items
  | None => []
  end.

(** [data?.find(item => item.type === "text")], then the [content] of the
    item found as a string, or the empty string when there is none. *)
Definition finalText (data : option (list StreamData)) : string :=
  match data with
  | Some items =>
      match find (fun item =>
                    match item with
                    | TextData _ => true
                    | ReasoningStepData _ => false
                    end)
                 items with
      | Some (TextData text) => text
      | _ => ""
      end
  | None => ""
  end.

End Page.

(** ** components/reasoning-step.tsx: the texts of a step card *)

Module StepCard.
Import Js Schema Dharma Route.

(** [z.infer<typeof reasoningStepSchema>]: the optional fields are options. *)
Record ReasoningStep : Type := {
  rs_title : string;
  rs_content : string;
  rs_dharma : option DharmaEvaluation;
  rs_dharmaScore : option string;
  rs_dharmaBreakdown : option DharmaBreakdown;
  rs_stepIndex : option nat;
  rs_maxSteps : option nat;
  rs_serverFeedback : option string;
  rs_nextStep : NextStep
}.

(** The step the page hands to the card: the [content] of a
    reasoning-step item, in which the handler set every field. *)
Definition received (e : EnrichedStep) : ReasoningStep :=
  {| rs_title := es_title e;
     rs_content := es_content e;
     rs_dharma := Some (es_dharma e);
     rs_dharmaScore := Some (es_dharmaScore e);
     rs_dharmaBreakdown := Some (es_dharmaBreakdown e);
     rs_stepIndex := Some (es_stepIndex e);
     rs_maxSteps := Some (es_maxSteps e);
     rs_serverFeedback := Some (es_serverFeedback e);
     rs_nextStep := es_nextStep e |}.

(** [step.dharmaScore !== undefined]. *)
Definition hasModelScores (step : ReasoningStep) : bool :=
  match rs_dharmaScore step with
  | Some _ => true
  | None => false
  end.

(** The step number badge, [{step.stepIndex}/{step.maxSteps || "?"}], shown
    when [step.stepIndex !== undefined]: a ceiling that is missing or zero
    is falsy and shows as a question mark. *)
Definition badge (step : ReasoningStep) : option string :=
  match rs_stepIndex step with
  | Some i =>
      Some (showNat i ++ "/"
            ++ match rs_maxSteps step with
               | Some (S m) => showNat (S m)
               | _ => "?"
               end)
  | None => None
  end.

(** The decision indicator. *)
Definition decisionLabel (step : ReasoningStep) : string :=
  match rs_nextStep step with
  | next_finalAnswer => "FINAL"
  | next_continue => "CONTINUE"
  end.

End StepCard.

(** ** lib/schema.ts: the schema of a streamed step *)

Module StepSchema.
Import Js Schema Dharma Route.

(** [z.number()]. *)
Definition z_number (v : option json) : option Q :=
  match v with
  | Some (JNum q) => Some q
  | _ => None
  end.

(** [.optional()]: a missing property is accepted as it is. *)
Definition z_optional {A : Type} (parse : option json -> option A)
    (v : option json) : option (option A) :=
  match v with
  | None => Some None
  | Some _ => x <- parse v ;; Some (Some x)
  end.

(** [z.enum(["continue", "finalAnswer"])]. *)
Definition z_enum_nextStep (v : option json) : option NextStep :=
  match v with
  | Some (JStr s) =>
      if String.eqb s "continue" then Some next_continue
      else if String.eqb s "finalAnswer" then Some next_finalAnswer
      else None
  | _ => None
  end.

(** [dharmaBreakdownSchema.parse]. *)
Definition dharmaBreakdownSchema_parse (v : option json)
  : option DharmaBreakdown :=
  match v with
  | Some (JObj props) =>
      m <- z_string (prop "mindfulness" props) ;;
      e <- z_string (prop "emptiness" props) ;;
      n <- z_string (prop "nonDuality" props) ;;
      b <- z_string (prop "boundlessCare" props) ;;
      Some {| bd_mindfulness := m; bd_emptiness := e; bd_nonDuality := n;
              bd_boundlessCare := b |}
  | _ => None
  end.

(** What [reasoningStepSchema.parse] answers. *)
Record ParsedStep : Type := {
  title : string;
  content : string;
  dharma : option DharmaEvaluation;
  dharmaScore : option string;
  dharmaBreakdown : option DharmaBreakdown;
  stepIndex : option Q;
  maxSteps : option Q;
  serverFeedback : option string;
  nextStep : NextStep
}.

(** [reasoningStepSchema.parse]: [None] stands for the thrown [ZodError]. *)
Definition reasoningStepSchema_parse (v : json) : option ParsedStep :=
  match v with
  | JObj props =>
      t <- z_string (prop "title" props) ;;
      c <- z_string (prop "content" props) ;;
      d <- z_optional dharmaSchema_parse (prop "dharma" props) ;;
      ds <- z_optional z_string (prop "dharmaScore" props) ;;
      db <- z_optional dharmaBreakdownSchema_parse
              (prop "dharmaBreakdown" props) ;;
      i <- z_optional z_number (prop "stepIndex" props) ;;
      m <- z_optional z_number (prop "maxSteps" props) ;;
      f <- z_optional z_string (prop "serverFeedback" props) ;;
      n <- z_enum_nextStep (prop "nextStep" props) ;;
      Some {| title := t; content := c; dharma := d; dharmaScore := ds;
              dharmaBreakdown := db; stepIndex := i; maxSteps := m;
              serverFeedback := f; nextStep := n |}
  | _ => None
  end.

(** The [enrichedStep] object of route.ts, as the value handed to
    [dataStream.writeData]. *)
Definition enrichedStepData (e : EnrichedStep) : json :=
  JObj [ ("title", JStr (es_title e));
         ("content", JStr (es_content e));
         ("dharma",
           JObj [ ("mindfulness", JNum (mindfulness (es_dharma e)));
                  ("emptiness", JNum (emptiness (es_dharma e)));
                  ("nonDuality", JNum (nonDuality (es_dharma e)));
                  ("boundlessCare", JNum (boundlessCare (es_dharma e)));
                  ("rationale", JStr (rationale (es_dharma e))) ]);
         ("nextStep",
           JStr (match es_nextStep e with
                 | next_continue => "continue"
                 | next_finalAnswer => "finalAnswer"
                 end));
         ("dharmaScore", JStr (es_dharmaScore e));
         ("dharmaBreakdown",
           JObj [ ("mindfulness",
                    JStr (bd_mindfulness (es_dharmaBreakdown e)));
                  ("emptiness", JStr (bd_emptiness (es_dharmaBreakdown e)));
                  ("nonDuality",
                    JStr (bd_nonDuality (es_dharmaBreakdown e)));
                  ("boundlessCare",
                    JStr (bd_boundlessCare (es_dharmaBreakdown e))) ]);
         ("stepIndex", JNum (inject_Z (Z.of_nat (es_stepIndex e))));
         ("maxSteps", JNum (inject_Z (Z.of_nat (es_maxSteps e))));
         ("serverFeedback", JStr (es_serverFeedback e)) ].

End StepSchema.

(** ** What a session recorded: notions used to state the properties *)

Import Js Schema Dharma Route.

(** The step indices for which the outer [catch] logged an error. *)
Definition stepErrors (console : list ConsoleRecord) : list nat :=
  flat_map (fun r => match r with LogStepError n => [n] | _ => [] end) console.

(** The telemetry records, in the order they were logged. *)
Definition stepLogs (console : list ConsoleRecord) : list StepTelemetry :=
  flat_map (fun r => match r with LogReasoningStep t => [t] | _ => [] end)
           console.

(** The text events of the outbound stream. *)
Definition textEvents (stream : list StreamData) : list string :=
  flat_map (fun d => match d with TextData t => [t] | _ => [] end) stream.

(** The validated step an enriched step was built from. *)
Definition validatedOf (e : EnrichedStep) : SingleStep :=
  {| step_title := es_title e;
     step_content := es_content e;
     step_dharma := es_dharma e |}.

(** The aggregate score of a recorded step. *)
Definition scoreOf (e : EnrichedStep) : Q := mean (scoresOf (es_dharma e)).

(** The score-history entry of a recorded step. *)
Definition entryOf (e : EnrichedStep) : ScoreHistoryEntry :=
  historyEntry (es_stepIndex e) (validatedOf e).

(** The feedback produced for step [n], read from the recorded steps; the
    empty string before the first step. *)
Definition feedbackOf (steps : list EnrichedStep) (n : nat) : string :=
  match n with
  | O => ""
  | S k =>
      match nth_error steps k with
      | Some e => es_serverFeedback e
      | None => ""
      end
  end.

(** The messages that precede the generate-step instruction of step [n + 1]
    when the feedback produced for step [n] is [feedback]. *)
Definition injectedBefore (messages : list Message) (n : nat)
    (feedback : string) : list Message :=
  (messages
   ++ (if truthy feedback
       then [ {| role := "assistant";
                 content := "[Server Feedback from Step " ++ showNat n
                            ++ "]: " ++ feedback |} ]
       else []))%list.

Section Recorded.

Variable cfg : Config.
Variable js : Builtins.
Variable svc : Services.
Variable messages : list Message.

(** The termination decision taken after a recorded step. *)
Definition decisionOf (e : EnrichedStep) : bool * TerminationReason :=
  terminationLogic cfg (es_stepIndex e) (scoreOf e).

Definition telemetryOf (e : EnrichedStep) : StepTelemetry :=
  telemetry cfg js (es_stepIndex e) (validatedOf e) (decisionOf e)
            (es_serverFeedback e).

(** The history handed to the feedback generator for the step at position
    [k] (step [k + 1]): the entries of the steps before it. *)
Definition historyBefore (steps : list EnrichedStep) (k : nat)
  : list ScoreHistoryEntry :=
  map entryOf (firstn k steps).

(** [e] is what the loop records at position [k] of [steps]. *)
Definition recordedAt (steps : list EnrichedStep) (k : nat)
    (e : EnrichedStep) : Prop :=
  es_stepIndex e = S k
  /\ e = enrichStep cfg js (S k) (validatedOf e) (fst (decisionOf e))
                    (es_serverFeedback e)
  /\ es_serverFeedback e =
       generateDharmaFeedback js (feedbackModel svc) (es_dharma e)
         (historyBefore steps k) (DHARMA_TARGET cfg).

(** A logged model call agrees with the recorded steps. *)
Definition callAgrees (steps : list EnrichedStep) (c : nat * ServiceCall)
  : Prop :=
  match c with
  | (n, GenerateStepCall context) =>
      (1 <= n <= S (List.length steps))%nat
      /\ context = contextMessages cfg messages n (feedbackOf steps (n - 1))
  | (n, FeedbackCall currentScores history target) =>
      exists e, nth_error steps (n - 1) = Some e
                /\ (1 <= n)%nat
                /\ currentScores = es_dharma e
                /\ history = historyBefore steps (n - 1)
                /\ target = DHARMA_TARGET cfg
  | (_, SynthesisCall _) => False
  end.

(** The invariant of the [while] loop. *)
Record Invariant (st : Session) : Prop := {
  inv_ceiling : (stepIndex st <= DHARMA_MAX_STEPS cfg)%nat;
  inv_steps :
    forall k e, nth_error (allSteps st) k = Some e ->
                recordedAt (allSteps st) k e;
  inv_history : scoreHistory st = map entryOf (allSteps st);
  inv_stream : dataStream st = map ReasoningStepData (allSteps st);
  inv_feedback :
    previousFeedback st = feedbackOf (allSteps st) (List.length (allSteps st));
  inv_counter :
    (stepErrors (console st) = []
     /\ stepIndex st = List.length (allSteps st))
    \/ (stepErrors (console st) = [stepIndex st]
        /\ stepIndex st = S (List.length (allSteps st))
        /\ shouldContinue st = false);
  inv_earlier :
    forall e, In e (allSteps st) -> (es_stepIndex e < stepIndex st)%nat ->
              fst (decisionOf e) = true;
  inv_latest :
    forall e, In e (allSteps st) -> es_stepIndex e = stepIndex st ->
              shouldContinue st = fst (decisionOf e);
  inv_fresh : stepIndex st = 0%nat -> shouldContinue st = true;
  inv_logs : stepLogs (console st) = map telemetryOf (allSteps st);
  inv_calls : Forall (callAgrees (allSteps st)) (calls st);
  inv_call_index :
    Forall (fun c => (fst c <= stepIndex st)%nat) (calls st);
  inv_called :
    forall k e, nth_error (allSteps st) k = Some e ->
      In (S k, GenerateStepCall
                 (contextMessages cfg messages (S k)
                                  (feedbackOf (allSteps st) k)))
         (calls st)
      /\ In (S k, FeedbackCall (es_dharma e) (historyBefore (allSteps st) k)
                               (DHARMA_TARGET cfg))
            (calls st)
}.

End Recorded.

(** ** Concrete sessions

    Instances of the parameters of the model, used to run the handler on
    explicit inputs. *)

Module Scenario.

Definition quote : string := String (ascii_of_nat 34) EmptyString.

Definition str (s : string) : string := quote ++ s ++ quote.

Definition field (k v : string) : string := str k ++ ":" ++ v.

(** A reply of the step model that follows the requested format, with the
    same score (given as its JSON text) in the four dimensions. *)
Definition replyText (score : string) : string :=
  "{" ++ field "title" (str "Analysis") ++ ","
  ++ field "content" (str "Work") ++ ","
  ++ field "dharma"
       ("{" ++ field "mindfulness" score ++ ","
        ++ field "emptiness" score ++ ","
        ++ field "nonDuality" score ++ ","
        ++ field "boundlessCare" score ++ ","
        ++ field "rationale" (str "self-evaluation") ++ "}")
  ++ "}".

(** What [JSON.parse] answers on [replyText]. *)
Definition replyJson (score : Q) : json :=
  JObj [ ("title", JStr "Analysis");
         ("content", JStr "Work");
         ("dharma",
           JObj [ ("mindfulness", JNum score);
                  ("emptiness", JNum score);
                  ("nonDuality", JNum score);
                  ("boundlessCare", JNum score);
                  ("rationale", JStr "self-evaluation") ]) ].

(** A reply without any brace: the regular expression finds no match. *)
Definition proseText : string := "I cannot answer in the requested format.".

Fixpoint zeros (n : nat) : string :=
  match n with
  | O => ""
  | S k => "0" ++ zeros k
  end.

(** [toFixed] on a non-negative rational, with at least one digit asked
    for: rounding to the nearest, a tie going up.  It agrees with
    [Number.prototype.toFixed] on the scores used in this module (0.1, 0.5
    and 0.9), not on every double (the double written 0.145 lies below
    0.145). *)
Definition toFixedQ (q : Q) (digits : nat) : string :=
  let scale := (10 ^ Z.of_nat digits)%Z in
  let n := ((2 * Qnum q * scale + Zpos (Qden q)) / (2 * Zpos (Qden q)))%Z in
  let frac := showNat (Z.to_nat (n mod scale)) in
  showNat (Z.to_nat (n / scale)) ++ "."
  ++ zeros (digits - String.length frac) ++ frac.

(** The built-ins on the texts of this module: [extractJson] on the three
    replies used below and on texts without a brace; [trim] on texts that
    neither start nor end with white space. *)
Definition builtins : Builtins :=
  {| extractJson := fun text =>
       if String.eqb text (replyText "0.9") then Some (replyJson (9 # 10))
       else if String.eqb text (replyText "0.1") then Some (replyJson (1 # 10))
       else if String.eqb text (replyText "1.5") then Some (replyJson (3 # 2))
       else None;
     trim := fun s => s;
     toFixed := toFixedQ |}.

Definition config (maxSteps : nat) : Config :=
  {| DHARMA_TARGET := 3 # 4; DHARMA_MAX_STEPS := maxSteps |}.

Definition question : list Message :=
  [ {| role := "user"; content := "How should we allocate the budget?" |} ].

(** The step model always answers [text]; the feedback model answers
    [feedback]; the synthesis model answers [answer]. *)
Definition services (text : string) (feedback answer : option string)
  : Services :=
  {| stepModel := fun _ => Some text;
     feedbackModel := fun _ _ _ => feedback;
     synthesisModel := fun _ => answer |}.

(** On the one-message conversation [question], the step model answers the
    first request (a context of two messages) and fails on every later one
    (three messages: the later contexts carry the feedback note). *)
Definition servicesFailingAfterFirst (text : string) : Services :=
  {| stepModel := fun context =>
       if (List.length context <=? 2)%nat then Some text else None;
     feedbackModel := fun _ _ _ => Some "Note your assumptions.";
     synthesisModel := fun _ => Some "Final answer." |}.

(** The session after three passes in which the step model answered
    [replyText "0.9"], under a ceiling of ten steps. *)
Definition afterThreeSteps : Session :=
  let pass :=
    iteration (config 10) builtins
              (services (replyText "0.9") None (Some "Final answer."))
              question in
  pass (pass (pass initialSession)).

(** The sub-scores written 0.6, 0.7, 0.8 and 0.9, as the doubles these
    literals denote. *)
Definition pointSixToPointNine : DharmaScores :=
  {| s_mindfulness := Double.literal (6 # 10);
     s_emptiness := Double.literal (7 # 10);
     s_nonDuality := Double.literal (8 # 10);
     s_boundlessCare := Double.literal (9 # 10) |}.

(** A configuration with another target. *)
Definition configWith (target : Q) (maxSteps : nat) : Config :=
  {| DHARMA_TARGET := target; DHARMA_MAX_STEPS := maxSteps |}.

(** The session a run ends in ([initialSession] if it did not end). *)
Definition sessionOf (run : option Session) : Session :=
  match run with
  | Some s => s
  | None => initialSession
  end.

End Scenario.

(** ** The claims of the specification, as stated, where the code differs *)

(** "For all DharmaScores inputs with each of the four sub-scores in
    [0,1], the aggregate function returns exactly (mindfulness + emptiness +
    nonDuality + boundlessCare) / 4": the value computed in double precision
    is the exact quotient. *)
Definition aggregateIsExactMean : Prop :=
  forall s : DharmaScores,
    0 <= s_mindfulness s <= 1 ->
    0 <= s_emptiness s <= 1 ->
    0 <= s_nonDuality s <= 1 ->
    0 <= s_boundlessCare s <= 1 ->
    Double.mean s
    == (s_mindfulness s + s_emptiness s + s_nonDuality s
        + s_boundlessCare s) / 4.

Section StatedClaims.

Variable cfg : Config.
Variable js : Builtins.
Variable svc : Services.
Variable messages : list Message.

(** "The number of reasoning steps produced is never more than maxSteps, and
    never fewer than minimumSteps unless a fatal per-step error aborts the
    loop early." *)
Definition stepsWithinFloorAndCeiling : Prop :=
  forall s, POST cfg js svc messages = Some s ->
    (List.length (allSteps s) <= DHARMA_MAX_STEPS cfg)%nat
    /\ (stepErrors (console s) = [] ->
        (MINIMUM_STEPS <= List.length (allSteps s))%nat).

(** "For every step-generation response, the controller produces a
    well-formed step and the session continues rather than aborting": a pass
    of the loop in which the step model answered records a step and logs no
    step error. *)
Definition everyResponseYieldsStep : Prop :=
  forall st text,
    stepModel svc (contextMessages cfg messages (S (stepIndex st))
                                   (previousFeedback st)) = Some text ->
    exists e,
      allSteps (iteration cfg js svc messages st) = (allSteps st ++ [e])%list
      /\ stepErrors (console (iteration cfg js svc messages st))
         = stepErrors (console st).

End StatedClaims.

(** ** Further notions on sessions *)

(** The four sub-scores lie in [0,1]. *)
Definition scoresInRange (d : DharmaEvaluation) : Prop :=
  0 <= mindfulness d <= 1
  /\ 0 <= emptiness d <= 1
  /\ 0 <= nonDuality d <= 1
  /\ 0 <= boundlessCare d <= 1.

(** The kind of a logged model call. *)
Inductive CallKind : Type :=
| StepGeneration
| FeedbackGeneration
| FinalSynthesis.

Definition callTag (c : nat * ServiceCall) : nat * CallKind :=
  match c with
  | (n, GenerateStepCall _) => (n, StepGeneration)
  | (n, FeedbackCall _ _ _) => (n, FeedbackGeneration)
  | (n, SynthesisCall _) => (n, FinalSynthesis)
  end.

(** The calls of a pass that records step [k]. *)
Definition passCalls (k : nat) : list (nat * CallKind) :=
  [(k, StepGeneration); (k, FeedbackGeneration)].

(** The calls of a loop that recorded [recorded] steps and then, when
    [aborted], failed in one more pass. *)
Definition loopCalls (recorded : nat) (aborted : bool)
  : list (nat * CallKind) :=
  (flat_map passCalls (seq 1 recorded)
   ++ (if aborted then [(S recorded, StepGeneration)] else []))%list.

(** Whether the outer [catch] logged a step error. *)
Definition aborted (console : list ConsoleRecord) : bool :=
  match stepErrors console with
  | [] => false
  | _ :: _ => true
  end.

(** The entry of the synthesis prompt for a step, numbered by the index the
    step carries. *)
Definition listedStep (e : EnrichedStep) : string :=
  nl ++ "Step " ++ showNat (es_stepIndex e) ++ ": " ++ es_title e ++ nl
  ++ es_content e ++ nl.

Section Extended.

Variable cfg : Config.
Variable js : Builtins.
Variable svc : Services.
Variable messages : list Message.

(** The loop invariant, with the range of the recorded scores and the
    sequence of the model calls. *)
Record ExtendedInvariant (st : Session) : Prop := {
  ext_invariant : Invariant cfg js svc messages st;
  ext_range :
    Forall (fun e => scoresInRange (es_dharma e)) (allSteps st);
  ext_calls :
    map callTag (calls st)
    = loopCalls (List.length (allSteps st)) (aborted (console st))
}.

End Extended.

(** ** The loop: termination and invariant *)

Section LoopFacts.

Variable cfg : Config.
Variable js : Builtins.
Variable svc : Services.
Variable messages : list Message.

Local Abbreviation iteration := (iteration cfg js svc messages).
Local Abbreviation while := (while cfg js svc messages).
Local Abbreviation loopCondition := (loopCondition cfg).
Local Abbreviation Invariant := (Invariant cfg js svc messages).

Lemma iteration_stepIndex (st : Session) :
  stepIndex (iteration st) = S (stepIndex st).
Proof.
  unfold Route.iteration.
  destruct (generateValidatedStep js svc _ _); reflexivity.
Qed.

Lemma loopCondition_true (st : Session) :
  loopCondition st = true ->
  shouldContinue st = true /\ (stepIndex st < DHARMA_MAX_STEPS cfg)%nat.
Proof.
  unfold Route.loopCondition. intros H.
  apply andb_true_iff in H. destruct H as [Hc Hlt].
  apply Nat.ltb_lt in Hlt. split; assumption.
Qed.

Lemma while_enough_fuel (fuel : nat) :
  forall st, (DHARMA_MAX_STEPS cfg - stepIndex st <= fuel)%nat ->
             exists st', while fuel st = Some st'.
Proof.
  induction fuel as [|fuel IH]; intros st Hfuel; simpl.
  - destruct (loopCondition st) eqn:Hc.
    + apply loopCondition_true in Hc. lia.
    + eauto.
  - destruct (loopCondition st) eqn:Hc.
    + apply IH. rewrite iteration_stepIndex.
      apply loopCondition_true in Hc. lia.
    + eauto.
Qed.

Lemma while_invariant (P : Session -> Prop) :
  (forall st, P st -> loopCondition st = true -> P (iteration st)) ->
  forall fuel st st',
    P st -> while fuel st = Some st' -> P st' /\ loopCondition st' = false.
Proof.
  intros Hstep fuel.
  induction fuel as [|fuel IH]; intros st st' HP Hrun; simpl in Hrun;
    destruct (loopCondition st) eqn:Hc; try discriminate.
  - inversion Hrun; subst. auto.
  - eapply IH; [apply Hstep; eassumption | exact Hrun].
  - inversion Hrun; subst. auto.
Qed.

(** Appending a step does not change what earlier positions recorded. *)

Lemma nth_error_snoc_old {A : Type} (l : list A) (x : A) (k : nat) :
  (k < List.length l)%nat -> nth_error (l ++ [x]) k = nth_error l k.
Proof. intros Hk. apply nth_error_app1. exact Hk. Qed.

Lemma nth_error_snoc_new {A : Type} (l : list A) (x : A) :
  nth_error (l ++ [x]) (List.length l) = Some x.
Proof.
  rewrite nth_error_app2 by lia. rewrite Nat.sub_diag. reflexivity.
Qed.

Lemma nth_error_snoc_inv {A : Type} (l : list A) (x y : A) (k : nat) :
  nth_error (l ++ [x]) k = Some y ->
  ((k < List.length l)%nat /\ nth_error l k = Some y)
  \/ (k = List.length l /\ y = x).
Proof.
  intros H.
  destruct (Nat.lt_ge_cases k (List.length l)) as [Hlt | Hge].
  - left. split; [exact Hlt|]. rewrite nth_error_snoc_old in H; assumption.
  - right.
    assert (Hlen : (k < List.length (l ++ [x]))%nat).
    { apply nth_error_Some. congruence. }
    rewrite length_app in Hlen. simpl in Hlen.
    assert (k = List.length l) by lia. subst k.
    rewrite nth_error_snoc_new in H. split; congruence.
Qed.

Lemma historyBefore_snoc (steps : list EnrichedStep) (x : EnrichedStep)
    (k : nat) :
  (k <= List.length steps)%nat ->
  historyBefore (steps ++ [x]) k = historyBefore steps k.
Proof.
  intros Hk. unfold historyBefore.
  rewrite firstn_app.
  replace (k - List.length steps)%nat with 0%nat by lia.
  simpl. rewrite app_nil_r. reflexivity.
Qed.

Lemma historyBefore_all (steps : list EnrichedStep) :
  historyBefore steps (List.length steps) = map entryOf steps.
Proof. unfold historyBefore. rewrite firstn_all. reflexivity. Qed.

Lemma feedbackOf_snoc (steps : list EnrichedStep) (x : EnrichedStep)
    (n : nat) :
  (n <= List.length steps)%nat ->
  feedbackOf (steps ++ [x]) n = feedbackOf steps n.
Proof.
  intros Hn. destruct n as [|k]; simpl; [reflexivity|].
  rewrite nth_error_snoc_old by lia. reflexivity.
Qed.

Lemma recordedAt_snoc (steps : list EnrichedStep) (x e : EnrichedStep)
    (k : nat) :
  (k <= List.length steps)%nat ->
  recordedAt cfg js svc steps k e -> recordedAt cfg js svc (steps ++ [x]) k e.
Proof.
  intros Hk (Hi & He & Hf). unfold recordedAt.
  rewrite historyBefore_snoc by exact Hk. auto.
Qed.

Lemma callAgrees_snoc (steps : list EnrichedStep) (x : EnrichedStep)
    (c : nat * ServiceCall) :
  callAgrees cfg messages steps c -> callAgrees cfg messages (steps ++ [x]) c.
Proof.
  destruct c as [n [context | cur hist target | msgs]]; simpl.
  - intros [Hn Hctx]. split.
    + rewrite length_app. simpl. lia.
    + rewrite feedbackOf_snoc by lia. exact Hctx.
  - intros (e & Hnth & Hn & Hcur & Hhist & Htarget).
    assert (Hlt : (n - 1 < List.length steps)%nat).
    { apply nth_error_Some. congruence. }
    exists e. rewrite nth_error_snoc_old by exact Hlt.
    rewrite historyBefore_snoc by lia. auto.
  - auto.
Qed.

Lemma stepErrors_app (c1 c2 : list ConsoleRecord) :
  stepErrors (c1 ++ c2) = (stepErrors c1 ++ stepErrors c2)%list.
Proof. unfold stepErrors. apply flat_map_app. Qed.

Lemma stepLogs_app (c1 c2 : list ConsoleRecord) :
  stepLogs (c1 ++ c2) = (stepLogs c1 ++ stepLogs c2)%list.
Proof. unfold stepLogs. apply flat_map_app. Qed.

(** The recorded steps carry the indices 1, 2, ... in order. *)
Lemma recorded_index (st : Session) (e : EnrichedStep) :
  Invariant st -> In e (allSteps st) ->
  (1 <= es_stepIndex e <= List.length (allSteps st))%nat
  /\ nth_error (allSteps st) (es_stepIndex e - 1) = Some e.
Proof.
  intros Hinv Hin.
  destruct (In_nth_error _ _ Hin) as [k Hk].
  assert (Hlt : (k < List.length (allSteps st))%nat).
  { apply nth_error_Some. congruence. }
  destruct (inv_steps _ _ _ _ _ Hinv k e Hk) as (Hi & _).
  rewrite Hi. simpl. rewrite Nat.sub_0_r. split; [lia | exact Hk].
Qed.

Lemma invariant_initial : Invariant initialSession.
Proof.
  constructor; simpl; auto with arith;
    try (intros k e H; destruct k; discriminate);
    try contradiction.
Qed.

Lemma invariant_iteration (st : Session) :
  Invariant st -> loopCondition st = true -> Invariant (iteration st).
Proof.
  intros Hinv Hcond.
  apply loopCondition_true in Hcond. destruct Hcond as [Hgo Hlt].
  assert (Hclean : stepErrors (console st) = []
                   /\ stepIndex st = List.length (allSteps st)).
  { destruct (inv_counter _ _ _ _ _ Hinv) as [H | (_ & _ & H)];
      [exact H | congruence]. }
  destruct Hclean as [Herr Hidx].
  assert (Hold : forall e, In e (allSteps st) ->
                           (es_stepIndex e < S (stepIndex st))%nat
                           /\ fst (decisionOf cfg e) = true).
  { intros e Hin.
    destruct (recorded_index _ _ Hinv Hin) as [Hrange _].
    split; [lia|].
    destruct (Nat.eq_dec (es_stepIndex e) (stepIndex st)) as [Heq | Hne].
    - rewrite <- (inv_latest _ _ _ _ _ Hinv e Hin Heq). exact Hgo.
    - apply (inv_earlier _ _ _ _ _ Hinv e Hin). lia. }
  unfold Route.iteration.
  destruct (generateValidatedStep js svc (S (stepIndex st))
              (contextMessages cfg messages (S (stepIndex st))
                               (previousFeedback st))) as [v|] eqn:Hgen.
  - (* the step was generated and validated *)
    rewrite removelast_last.
    set (fb := generateDharmaFeedback js (feedbackModel svc) (step_dharma v)
                 (scoreHistory st) (DHARMA_TARGET cfg)).
    set (dec := terminationLogic cfg (S (stepIndex st))
                  (mean (scoresOf (step_dharma v)))).
    set (e' := enrichStep cfg js (S (stepIndex st)) v (fst dec) fb).
    assert (Hrec' : recordedAt cfg js svc (allSteps st ++ [e'])
                      (List.length (allSteps st)) e').
    { unfold recordedAt. rewrite historyBefore_snoc by lia.
      rewrite historyBefore_all, <- (inv_history _ _ _ _ _ Hinv).
      rewrite <- Hidx. repeat split; reflexivity. }
    constructor; simpl.
    + lia.
    + intros k e Hk.
      destruct (nth_error_snoc_inv _ _ _ _ Hk) as [[Hklt Hk'] | [Hkeq He]].
      * apply recordedAt_snoc; [lia|].
        apply (inv_steps _ _ _ _ _ Hinv). exact Hk'.
      * subst k e. exact Hrec'.
    + rewrite map_app, (inv_history _ _ _ _ _ Hinv). reflexivity.
    + rewrite map_app, (inv_stream _ _ _ _ _ Hinv). reflexivity.
    + rewrite length_app. simpl. rewrite Nat.add_1_r. simpl.
      rewrite nth_error_snoc_new. reflexivity.
    + left. rewrite stepErrors_app, Herr, length_app. simpl. split; [reflexivity | lia].
    + intros e Hin Hidx'. apply in_app_or in Hin.
      destruct Hin as [Hin | [He | []]].
      * apply Hold. exact Hin.
      * subst e. simpl in Hidx'. lia.
    + intros e Hin Hidx'. apply in_app_or in Hin.
      destruct Hin as [Hin | [He | []]].
      * destruct (Hold e Hin) as [Hlt' _]. lia.
      * subst e. reflexivity.
    + discriminate.
    + rewrite stepLogs_app, map_app, (inv_logs _ _ _ _ _ Hinv). reflexivity.
    + rewrite <- app_assoc. apply Forall_app. split.
      * eapply Forall_impl; [|exact (inv_calls _ _ _ _ _ Hinv)].
        intros c Hc. apply callAgrees_snoc. exact Hc.
      * constructor; [|constructor; [|constructor]]; simpl.
        -- split; [rewrite length_app; simpl; lia|].
           rewrite Nat.sub_0_r, feedbackOf_snoc by lia.
           rewrite (inv_feedback _ _ _ _ _ Hinv), <- Hidx. reflexivity.
        -- exists e'. rewrite Nat.sub_0_r, Hidx, nth_error_snoc_new.
           rewrite historyBefore_snoc by lia.
           rewrite historyBefore_all, <- (inv_history _ _ _ _ _ Hinv).
           repeat split; try reflexivity. lia.
    + rewrite <- app_assoc. apply Forall_app. split.
      * eapply Forall_impl; [|exact (inv_call_index _ _ _ _ _ Hinv)].
        simpl. intros c Hc. lia.
      * repeat constructor.
    + intros k e Hk.
      destruct (nth_error_snoc_inv _ _ _ _ Hk) as [[Hklt Hk'] | [Hkeq He]].
      * rewrite feedbackOf_snoc, historyBefore_snoc by lia.
        destruct (inv_called _ _ _ _ _ Hinv k e Hk') as [Hg Hf].
        split; apply in_or_app; left; apply in_or_app; left; assumption.
      * subst k e. rewrite feedbackOf_snoc, historyBefore_snoc by lia.
        rewrite historyBefore_all, <- (inv_history _ _ _ _ _ Hinv).
        rewrite (inv_feedback _ _ _ _ _ Hinv), <- Hidx.
        split; apply in_or_app.
        -- left. apply in_or_app. right. left. reflexivity.
        -- right. left. reflexivity.
  - (* the outer catch *)
    constructor; simpl.
    + lia.
    + apply (inv_steps _ _ _ _ _ Hinv).
    + apply (inv_history _ _ _ _ _ Hinv).
    + apply (inv_stream _ _ _ _ _ Hinv).
    + apply (inv_feedback _ _ _ _ _ Hinv).
    + right. rewrite stepErrors_app, Herr, Hidx. simpl. auto.
    + intros e Hin _. apply Hold. exact Hin.
    + intros e Hin Hidx'. destruct (Hold e Hin) as [Hlt' _]. lia.
    + discriminate.
    + rewrite stepLogs_app, app_nil_r. apply (inv_logs _ _ _ _ _ Hinv).
    + apply Forall_app. split; [exact (inv_calls _ _ _ _ _ Hinv)|].
      constructor; [|constructor]. simpl. split; [lia|].
      rewrite Nat.sub_0_r, (inv_feedback _ _ _ _ _ Hinv), <- Hidx.
      reflexivity.
    + apply Forall_app. split.
      * eapply Forall_impl; [|exact (inv_call_index _ _ _ _ _ Hinv)].
        simpl. intros c Hc. lia.
      * repeat constructor.
    + intros k e Hk.
      destruct (inv_called _ _ _ _ _ Hinv k e Hk) as [Hg Hf].
      split; apply in_or_app; left; assumption.
Qed.

End LoopFacts.

(** ** The session the handler returns *)

Section SessionFacts.

Variable cfg : Config.
Variable js : Builtins.
Variable svc : Services.
Variable messages : list Message.

Local Abbreviation iteration := (iteration cfg js svc messages).
Local Abbreviation while := (while cfg js svc messages).
Local Abbreviation loopCondition := (loopCondition cfg).
Local Abbreviation Invariant := (Invariant cfg js svc messages).
Local Abbreviation synthesis := (synthesis svc messages).
Local Abbreviation POST := (POST cfg js svc messages).

(** The handler returns: the loop ends in a session that satisfies the
    invariant and falsifies the loop condition, and the synthesis follows. *)
Lemma POST_session :
  exists st, Invariant st /\ loopCondition st = false
             /\ POST = Some (synthesis st).
Proof.
  destruct (while_enough_fuel cfg js svc messages (DHARMA_MAX_STEPS cfg)
              initialSession) as [st Hrun].
  { simpl. lia. }
  destruct (while_invariant cfg js svc messages Invariant
              (invariant_iteration cfg js svc messages)
              _ _ _ (invariant_initial cfg js svc messages) Hrun)
    as [Hinv Hexit].
  exists st. split; [exact Hinv | split; [exact Hexit|]].
  unfold Route.POST, Route.execute. rewrite Hrun. reflexivity.
Qed.

Lemma synthesis_loop_state (st : Session) :
  stepIndex (synthesis st) = stepIndex st
  /\ allSteps (synthesis st) = allSteps st
  /\ scoreHistory (synthesis st) = scoreHistory st
  /\ stepErrors (console (synthesis st)) = stepErrors (console st)
  /\ stepLogs (console (synthesis st)) = stepLogs (console st)
  /\ calls (synthesis st)
     = (calls st
        ++ [(stepIndex st, SynthesisCall (synthesisMessages messages st))])%list.
Proof.
  unfold Route.synthesis.
  destruct (synthesisModel svc (synthesisMessages messages st)); simpl;
    rewrite ?stepErrors_app, ?stepLogs_app, ?app_nil_r; repeat split.
Qed.

Lemma terminationLogic_stop (i : nat) (score : Q) :
  fst (terminationLogic cfg i score) = false ->
  (DHARMA_MAX_STEPS cfg <= i)%nat
  \/ ((MINIMUM_STEPS <= i < DHARMA_MAX_STEPS cfg)%nat
      /\ DHARMA_TARGET cfg <= score).
Proof.
  unfold terminationLogic, geb.
  destruct (DHARMA_MAX_STEPS cfg <=? i)%nat eqn:Hmax.
  - intros _. left. apply Nat.leb_le. exact Hmax.
  - apply Nat.leb_gt in Hmax.
    destruct (i <? MINIMUM_STEPS)%nat eqn:Hmin; [discriminate|].
    apply Nat.ltb_ge in Hmin.
    destruct (Qle_bool (DHARMA_TARGET cfg) score) eqn:Hq; [|discriminate].
    intros _. right. apply Qle_bool_iff in Hq. auto.
Qed.

(** How many steps a session that leaves the loop without error recorded. *)
Lemma clean_exit_steps (st : Session) :
  Invariant st -> loopCondition st = false ->
  stepErrors (console st) = [] ->
  stepIndex st = List.length (allSteps st)
  /\ ((DHARMA_MAX_STEPS cfg <= stepIndex st)%nat
      \/ (MINIMUM_STEPS <= stepIndex st)%nat).
Proof.
  intros Hinv Hexit Hclean.
  assert (Hidx : stepIndex st = List.length (allSteps st)).
  { destruct (inv_counter _ _ _ _ _ Hinv) as [[_ H] | (H & _ & _)];
      [exact H | rewrite Hclean in H; discriminate]. }
  split; [exact Hidx|].
  unfold Route.loopCondition in Hexit. apply andb_false_iff in Hexit.
  destruct Hexit as [Hstop | Hmax].
  - destruct (stepIndex st) as [|k] eqn:Hk.
    + rewrite (inv_fresh _ _ _ _ _ Hinv Hk) in Hstop. discriminate.
    + destruct (nth_error (allSteps st) k) as [e|] eqn:He.
      * destruct (inv_steps _ _ _ _ _ Hinv k e He) as (Hi & _).
        assert (Hin : In e (allSteps st)) by (eapply nth_error_In; eauto).
        pose proof (inv_latest _ _ _ _ _ Hinv e Hin) as Hlast.
        rewrite Hk, Hstop in Hlast. specialize (Hlast Hi).
        symmetry in Hlast. apply terminationLogic_stop in Hlast.
        rewrite Hi in Hlast. lia.
      * apply nth_error_None in He. lia.
  - apply Nat.ltb_ge in Hmax. left. exact Hmax.
Qed.

Lemma recorded_at_most_attempted (st : Session) :
  Invariant st -> (List.length (allSteps st) <= stepIndex st)%nat.
Proof.
  intros Hinv.
  destruct (inv_counter _ _ _ _ _ Hinv) as [[_ H] | (_ & H & _)]; lia.
Qed.

Lemma terminationLogic_chain (i : nat) (score : Q) :
  ((DHARMA_MAX_STEPS cfg <= i)%nat ->
   terminationLogic cfg i score = (false, max_steps_reached))
  /\ ((i < DHARMA_MAX_STEPS cfg)%nat -> (i < MINIMUM_STEPS)%nat ->
      terminationLogic cfg i score = (true, minimum_steps_required))
  /\ ((i < DHARMA_MAX_STEPS cfg)%nat -> (MINIMUM_STEPS <= i)%nat ->
      DHARMA_TARGET cfg <= score ->
      terminationLogic cfg i score = (false, target_reached))
  /\ ((i < DHARMA_MAX_STEPS cfg)%nat -> (MINIMUM_STEPS <= i)%nat ->
      ~ DHARMA_TARGET cfg <= score ->
      terminationLogic cfg i score = (true, continuing)).
Proof.
  unfold terminationLogic, geb.
  destruct (DHARMA_MAX_STEPS cfg <=? i)%nat eqn:Hmax;
    [apply Nat.leb_le in Hmax | apply Nat.leb_gt in Hmax];
    (destruct (i <? MINIMUM_STEPS)%nat eqn:Hmin;
     [apply Nat.ltb_lt in Hmin | apply Nat.ltb_ge in Hmin]);
    (destruct (Qle_bool (DHARMA_TARGET cfg) score) eqn:Hq;
     [apply Qle_bool_iff in Hq
     | assert (~ DHARMA_TARGET cfg <= score)
         by (rewrite <- Qle_bool_iff; congruence)]);
    repeat split; intros; try reflexivity; try lia; try contradiction.
Qed.

(** A pass of the loop in which a step was generated and validated. *)
Lemma iteration_generated (st : Session) (v : SingleStep) :
  generateValidatedStep js svc (S (stepIndex st))
    (contextMessages cfg messages (S (stepIndex st)) (previousFeedback st))
  = Some v ->
  let decision :=
    terminationLogic cfg (S (stepIndex st)) (mean (scoresOf (step_dharma v)))
  in
  let feedback :=
    generateDharmaFeedback js (feedbackModel svc) (step_dharma v)
                           (scoreHistory st) (DHARMA_TARGET cfg) in
  let e := enrichStep cfg js (S (stepIndex st)) v (fst decision) feedback in
  shouldContinue (iteration st) = fst decision
  /\ allSteps (iteration st) = (allSteps st ++ [e])%list
  /\ dataStream (iteration st) = (dataStream st ++ [ReasoningStepData e])%list
  /\ previousFeedback (iteration st) = feedback
  /\ console (iteration st)
     = (console st
        ++ [LogReasoningStep
              (telemetry cfg js (S (stepIndex st)) v decision feedback)])%list.
Proof.
  intros Hgen. unfold Route.iteration. rewrite Hgen.
  rewrite removelast_last. simpl. repeat split.
Qed.

(** A pass of the loop that ends in the outer [catch]. *)
Lemma iteration_aborted (st : Session) :
  generateValidatedStep js svc (S (stepIndex st))
    (contextMessages cfg messages (S (stepIndex st)) (previousFeedback st))
  = None ->
  shouldContinue (iteration st) = false
  /\ allSteps (iteration st) = allSteps st
  /\ dataStream (iteration st) = dataStream st
  /\ console (iteration st)
     = (console st ++ [LogStepError (S (stepIndex st))])%list.
Proof.
  intros Hgen. unfold Route.iteration. rewrite Hgen. simpl. repeat split.
Qed.

(** *** Schema validation *)

Lemma z_number_min_max_some (lo hi : Q) (v : option json) (q : Q) :
  z_number_min_max lo hi v = Some q ->
  v = Some (JNum q) /\ lo <= q <= hi.
Proof.
  unfold z_number_min_max.
  destruct v as [[| | x | | |]|]; try discriminate.
  destruct (Qle_bool lo x && Qle_bool x hi) eqn:Hrange; [|discriminate].
  intros H. inversion H; subst.
  apply andb_true_iff in Hrange. destruct Hrange as [Hlo Hhi].
  apply Qle_bool_iff in Hlo. apply Qle_bool_iff in Hhi. auto.
Qed.

Lemma dharmaSchema_parse_some (d : list (string * json))
    (ev : DharmaEvaluation) :
  dharmaSchema_parse (Some (JObj d)) = Some ev ->
  (prop "mindfulness" d = Some (JNum (mindfulness ev))
   /\ 0 <= mindfulness ev <= 1)
  /\ (prop "emptiness" d = Some (JNum (emptiness ev))
      /\ 0 <= emptiness ev <= 1)
  /\ (prop "nonDuality" d = Some (JNum (nonDuality ev))
      /\ 0 <= nonDuality ev <= 1)
  /\ (prop "boundlessCare" d = Some (JNum (boundlessCare ev))
      /\ 0 <= boundlessCare ev <= 1).
Proof.
  unfold dharmaSchema_parse, bind.
  destruct (z_number_min_max 0 1 (prop "mindfulness" d)) as [m|] eqn:Hm;
    [|discriminate].
  destruct (z_number_min_max 0 1 (prop "emptiness" d)) as [e|] eqn:He;
    [|discriminate].
  destruct (z_number_min_max 0 1 (prop "nonDuality" d)) as [n|] eqn:Hn;
    [|discriminate].
  destruct (z_number_min_max 0 1 (prop "boundlessCare" d)) as [b|] eqn:Hb;
    [|discriminate].
  destruct (z_string (prop "rationale" d)); [|discriminate].
  intros H. inversion H; subst. simpl.
  apply z_number_min_max_some in Hm, He, Hn, Hb. auto.
Qed.

(** A payload with a sub-score outside [0,1] does not pass the schema. *)
Lemma subscore_out_of_range_rejected (props d : list (string * json))
    (key : string) (q : Q) :
  prop "dharma" props = Some (JObj d) ->
  In key ["mindfulness"; "emptiness"; "nonDuality"; "boundlessCare"] ->
  prop key d = Some (JNum q) ->
  ~ 0 <= q <= 1 ->
  singleStepSchema_parse (JObj props) = None.
Proof.
  intros Hd Hkey Hq Hout.
  destruct (singleStepSchema_parse (JObj props)) as [s|] eqn:Hparse;
    [exfalso | reflexivity].
  unfold singleStepSchema_parse, bind in Hparse.
  destruct (z_string (prop "title" props)); [|discriminate].
  destruct (z_string (prop "content" props)); [|discriminate].
  rewrite Hd in Hparse.
  destruct (dharmaSchema_parse (Some (JObj d))) as [ev|] eqn:Hev;
    [|discriminate].
  apply dharmaSchema_parse_some in Hev.
  destruct Hev as ([Hm Hm'] & [He He'] & [Hn Hn'] & [Hb Hb']).
  simpl in Hkey.
  destruct Hkey as [<- | [<- | [<- | [<- | []]]]];
    [rewrite Hm in Hq | rewrite He in Hq | rewrite Hn in Hq
     | rewrite Hb in Hq];
    inversion Hq; subst; contradiction.
Qed.

(** The fallback object passes the schema. *)
Lemma fallback_validates (i : nat) (text : string) :
  singleStepSchema_parse (fallbackStepData i text)
  = Some {| step_title := "Reasoning Step " ++ showNat i;
            step_content := text;
            step_dharma :=
              {| mindfulness := 1 # 2;
                 emptiness := 1 # 2;
                 nonDuality := 1 # 2;
                 boundlessCare := 1 # 2;
                 rationale := "Auto-generated (parsing failed)" |} |}.
Proof. reflexivity. Qed.

(** Once [shouldContinue] is false the loop makes no further pass. *)
Lemma while_stopped (fuel : nat) (st : Session) :
  shouldContinue st = false -> while fuel st = Some st.
Proof.
  intros Hstop. destruct fuel; simpl; unfold Route.loopCondition;
    rewrite Hstop; reflexivity.
Qed.

(** *** Lists and logs *)

Lemma firstn_seq_le (k start len : nat) :
  (k <= len)%nat -> firstn k (seq start len) = seq start k.
Proof.
  revert start len.
  induction k as [|k IH]; intros start len Hk; [reflexivity|].
  destruct len as [|len]; [lia|]. simpl. f_equal. apply IH. lia.
Qed.

Lemma map_positions {A : Type} (f : A -> nat) (l : list A) :
  (forall k a, nth_error l k = Some a -> f a = S k) ->
  map f l = seq 1 (List.length l).
Proof.
  induction l as [|x l IH] using rev_ind; intros Hpos; [reflexivity|].
  rewrite map_app, last_length, seq_S. simpl. f_equal.
  - apply IH. intros k a Hk. apply Hpos.
    rewrite nth_error_app1; [exact Hk|].
    apply nth_error_Some. congruence.
  - f_equal. apply Hpos. apply nth_error_snoc_new.
Qed.

Lemma recorded_indices (st : Session) :
  Invariant st ->
  map es_stepIndex (allSteps st) = seq 1 (List.length (allSteps st)).
Proof.
  intros Hinv. apply map_positions. intros k e Hk.
  destruct (inv_steps _ _ _ _ _ Hinv k e Hk) as (Hi & _). exact Hi.
Qed.

Lemma historyBefore_steps (st : Session) (k : nat) :
  Invariant st -> (k <= List.length (allSteps st))%nat ->
  map entry_step (historyBefore (allSteps st) k) = seq 1 k.
Proof.
  intros Hinv Hk. unfold historyBefore. rewrite map_map.
  rewrite (map_ext (fun e => entry_step (entryOf e)) es_stepIndex)
    by reflexivity.
  rewrite <- firstn_map, (recorded_indices st Hinv).
  apply firstn_seq_le. exact Hk.
Qed.

Lemma in_stepErrors (console : list ConsoleRecord) (n : nat) :
  In (LogStepError n) console -> In n (stepErrors console).
Proof.
  intros Hin. unfold stepErrors. apply in_flat_map.
  exists (LogStepError n). split; [exact Hin | left; reflexivity].
Qed.

Lemma textEvents_steps_then_text (steps : list EnrichedStep)
    (answer : string) :
  textEvents (map ReasoningStepData steps ++ [TextData answer]) = [answer].
Proof.
  unfold textEvents. rewrite flat_map_app. simpl.
  induction steps as [|e steps IH]; [reflexivity | exact IH].
Qed.

Lemma length_mapi_from {A B : Type} (f : A -> nat -> B) (l : list A) :
  forall i, List.length (mapi_from i f l) = List.length l.
Proof.
  induction l as [|a l IH]; intros i; simpl; [reflexivity|].
  f_equal. apply IH.
Qed.

Lemma length_stepListing (steps : list EnrichedStep) :
  List.length (stepListing steps) = List.length steps.
Proof. unfold stepListing, mapi. apply length_mapi_from. Qed.

Lemma synthesis_stream (st : Session) :
  exists answer,
    dataStream (synthesis st) = (dataStream st ++ [TextData answer])%list
    /\ (forall text,
          synthesisModel svc (synthesisMessages messages (synthesis st))
          = Some text -> answer = text)
    /\ (synthesisModel svc (synthesisMessages messages (synthesis st)) = None
        -> answer = synthesisErrorText).
Proof.
  assert (Hsame : synthesisMessages messages (synthesis st)
                  = synthesisMessages messages st).
  { destruct (synthesis_loop_state st) as (Hidx & Hsteps & _).
    unfold synthesisMessages. rewrite Hidx, Hsteps. reflexivity. }
  rewrite Hsame. unfold Route.synthesis.
  destruct (synthesisModel svc (synthesisMessages messages st)) as [t|];
    simpl; eexists; split; try reflexivity; split; congruence.
Qed.

Lemma generateSimpleFeedback_nonempty (s : DharmaScores) (target : Q) :
  generateSimpleFeedback s target <> "".
Proof.
  unfold generateSimpleFeedback.
  destruct (ltb (s_mindfulness s) target), (ltb (s_emptiness s) target),
    (ltb (s_nonDuality s) target), (ltb (s_boundlessCare s) target);
    discriminate.
Qed.

End SessionFacts.

(** ** The properties of the specification *)

Section Claims.

Variable cfg : Config.
Variable js : Builtins.
Variable svc : Services.
Variable messages : list Message.

Local Abbreviation iteration := (iteration cfg js svc messages).
Local Abbreviation Invariant := (Invariant cfg js svc messages).
Local Abbreviation synthesis := (synthesis svc messages).
Local Abbreviation POST := (POST cfg js svc messages).
Local Abbreviation nextContext st :=
  (contextMessages cfg messages (S (stepIndex st)) (previousFeedback st)).


(** C2 (amended). The handler returns with at most [DHARMA_MAX_STEPS] steps
    recorded and, when no step ended in the outer [catch], with at least the
    smaller of [MINIMUM_STEPS] and [DHARMA_MAX_STEPS]. *)
Theorem steps_between_effective_floor_and_ceiling :
  exists s,
    POST = Some s
    /\ (List.length (allSteps s) <= DHARMA_MAX_STEPS cfg)%nat
    /\ (stepErrors (console s) = [] ->
        (Nat.min MINIMUM_STEPS (DHARMA_MAX_STEPS cfg)
         <= List.length (allSteps s))%nat).
Proof.
  destruct (POST_session cfg js svc messages) as (st & Hinv & Hexit & Hpost).
  destruct (synthesis_loop_state svc messages st)
    as (_ & Hsteps & _ & Herr & _).
  exists (synthesis st). split; [exact Hpost|].
  rewrite Hsteps, Herr.
  pose proof (inv_ceiling _ _ _ _ _ Hinv) as Hceil.
  pose proof (recorded_at_most_attempted cfg js svc messages st Hinv).
  split; [lia|].
  intros Hclean.
  destruct (clean_exit_steps cfg js svc messages st Hinv Hexit Hclean)
    as [Hlen Hstop].
  lia.
Qed.

(** C3 (amended). When the step model answered [text]:
    - if no JSON can be extracted from [text], the pass records and streams a
      degraded step (title "Reasoning Step N", [text] as content, the four
      sub-scores at 1/2, the rationale "Auto-generated (parsing failed)"),
      logs no step error and takes the usual termination decision;
    - if the extracted payload fails the schema, the pass ends in the outer
      [catch]: nothing is recorded or streamed, the error is logged and the
      loop makes no further pass;
    - a payload with a sub-score outside [0,1] is such a payload. *)
Theorem unparseable_reply_degrades_invalid_payload_aborts
    (st : Session) (text : string) :
  stepModel svc (nextContext st) = Some text ->
  (extractJson js text = None ->
   exists e,
     allSteps (iteration st) = (allSteps st ++ [e])%list
     /\ dataStream (iteration st)
        = (dataStream st ++ [ReasoningStepData e])%list
     /\ stepErrors (console (iteration st)) = stepErrors (console st)
     /\ es_title e = "Reasoning Step " ++ showNat (S (stepIndex st))
     /\ es_content e = text
     /\ es_dharma e
        = {| mindfulness := 1 # 2;
             emptiness := 1 # 2;
             nonDuality := 1 # 2;
             boundlessCare := 1 # 2;
             rationale := "Auto-generated (parsing failed)" |}
     /\ shouldContinue (iteration st)
        = fst (terminationLogic cfg (S (stepIndex st)) (scoreOf e)))
  /\ (forall v,
         extractJson js text = Some v -> singleStepSchema_parse v = None ->
         allSteps (iteration st) = allSteps st
         /\ dataStream (iteration st) = dataStream st
         /\ console (iteration st)
            = (console st ++ [LogStepError (S (stepIndex st))])%list
         /\ shouldContinue (iteration st) = false
         /\ forall fuel,
              while cfg js svc messages fuel (iteration st)
              = Some (iteration st))
  /\ (forall props d key q,
         extractJson js text = Some (JObj props) ->
         prop "dharma" props = Some (JObj d) ->
         In key ["mindfulness"; "emptiness"; "nonDuality"; "boundlessCare"] ->
         prop key d = Some (JNum q) ->
         ~ 0 <= q <= 1 ->
         singleStepSchema_parse (JObj props) = None).
Proof.
  intros Hreply. split; [|split].
  - intros Hnone.
    assert (Hgen : generateValidatedStep js svc (S (stepIndex st))
                     (nextContext st)
                   = singleStepSchema_parse
                       (fallbackStepData (S (stepIndex st)) text)).
    { unfold generateValidatedStep, parseStepData, bind.
      rewrite Hreply, Hnone. reflexivity. }
    rewrite fallback_validates in Hgen.
    destruct (iteration_generated cfg js svc messages st _ Hgen)
      as (Hgo & Hsteps & Hstream & _ & Hlog).
    eexists. split; [exact Hsteps|]. split; [exact Hstream|].
    split; [rewrite Hlog, stepErrors_app; simpl; apply app_nil_r|].
    repeat split. exact Hgo.
  - intros v Hsome Hinvalid.
    assert (Hgen : generateValidatedStep js svc (S (stepIndex st))
                     (nextContext st) = None).
    { unfold generateValidatedStep, parseStepData, bind.
      rewrite Hreply, Hsome. exact Hinvalid. }
    destruct (iteration_aborted cfg js svc messages st Hgen)
      as (Hstop & Hsteps & Hstream & Hlog).
    repeat split; try assumption.
    intros fuel. apply while_stopped. exact Hstop.
  - intros props d key q _. apply subscore_out_of_range_rejected.
Qed.


(** C5. Every call of the feedback generator made for step [n] receives
    the score-history entries of the recorded steps 1 to [n - 1], in that
    order, and not the entry of step [n]; the current scores it receives are
    those of step [n].  Every recorded step has such a call. *)
Theorem feedback_history_is_prior_steps :
  exists s,
    POST = Some s
    /\ (forall n currentScores history target,
          In (n, FeedbackCall currentScores history target) (calls s) ->
          history = map entryOf (firstn (n - 1) (allSteps s))
          /\ map entry_step history = seq 1 (n - 1)
          /\ ~ In n (map entry_step history)
          /\ exists e, nth_error (allSteps s) (n - 1) = Some e
                       /\ es_stepIndex e = n
                       /\ currentScores = es_dharma e)
    /\ (forall e,
          In e (allSteps s) ->
          In (es_stepIndex e,
              FeedbackCall (es_dharma e)
                (map entryOf (firstn (es_stepIndex e - 1) (allSteps s)))
                (DHARMA_TARGET cfg))
             (calls s)).
Proof.
  destruct (POST_session cfg js svc messages) as (st & Hinv & Hexit & Hpost).
  destruct (synthesis_loop_state svc messages st)
    as (_ & Hsteps & _ & _ & _ & Hcalls).
  exists (synthesis st). split; [exact Hpost|].
  rewrite Hsteps, Hcalls. split.
  - intros n cur hist target Hcall. apply in_app_or in Hcall.
    destruct Hcall as [Hcall | [Hcall | []]]; [|discriminate].
    pose proof (inv_calls _ _ _ _ _ Hinv) as Hall.
    rewrite Forall_forall in Hall. specialize (Hall _ Hcall).
    destruct Hall as (e & Hnth & Hn & Hcur & Hhist & _).
    assert (Hlt : (n - 1 < List.length (allSteps st))%nat).
    { apply nth_error_Some. congruence. }
    assert (Hidx : map entry_step hist = seq 1 (n - 1)).
    { rewrite Hhist.
      apply (historyBefore_steps cfg js svc messages st); [exact Hinv | lia]. }
    split; [exact Hhist|]. split; [exact Hidx|]. split.
    + rewrite Hidx, in_seq. lia.
    + exists e. split; [exact Hnth|]. split; [|exact Hcur].
      destruct (inv_steps _ _ _ _ _ Hinv _ _ Hnth) as (Hi & _). lia.
  - intros e Hin.
    destruct (recorded_index cfg js svc messages st e Hinv Hin)
      as [Hrange Hnth].
    destruct (inv_called _ _ _ _ _ Hinv _ _ Hnth) as [_ Hcall].
    replace (S (es_stepIndex e - 1)) with (es_stepIndex e) in Hcall by lia.
    apply in_or_app. left. exact Hcall.
Qed.

(** C6. The context of the first generation call is the conversation
    followed by the instruction: no feedback note.  For [n >= 1], the context
    of the generation call for step [n + 1] is the conversation, then - when
    the feedback produced for step [n] is not the empty string - one note
    attributed to step [n] that carries exactly that feedback, then the
    instruction; the feedback is the one the feedback generator returned for
    step [n]. *)
Theorem injected_feedback_is_previous_step_feedback :
  exists s,
    POST = Some s
    /\ (forall context,
          In (1%nat, GenerateStepCall context) (calls s) ->
          context = (messages ++ [stepInstruction cfg 1 ""])%list)
    /\ (forall n context,
          (1 <= n)%nat ->
          In (S n, GenerateStepCall context) (calls s) ->
          exists e,
            nth_error (allSteps s) (n - 1) = Some e
            /\ es_stepIndex e = n
            /\ es_serverFeedback e
               = generateDharmaFeedback js (feedbackModel svc) (es_dharma e)
                   (map entryOf (firstn (n - 1) (allSteps s)))
                   (DHARMA_TARGET cfg)
            /\ context
               = (injectedBefore messages n (es_serverFeedback e)
                  ++ [stepInstruction cfg (S n) (es_serverFeedback e)])%list)
    /\ (forall e,
          In e (allSteps s) ->
          exists context,
            In (es_stepIndex e, GenerateStepCall context) (calls s)).
Proof.
  destruct (POST_session cfg js svc messages) as (st & Hinv & Hexit & Hpost).
  destruct (synthesis_loop_state svc messages st)
    as (_ & Hsteps & _ & _ & _ & Hcalls).
  exists (synthesis st). split; [exact Hpost|].
  rewrite Hsteps, Hcalls.
  pose proof (inv_calls _ _ _ _ _ Hinv) as Hall.
  rewrite Forall_forall in Hall.
  split; [|split].
  - intros context Hcall. apply in_app_or in Hcall.
    destruct Hcall as [Hcall | [Hcall | []]]; [|discriminate].
    destruct (Hall _ Hcall) as [_ Hctx]. exact Hctx.
  - intros n context Hn Hcall. apply in_app_or in Hcall.
    destruct Hcall as [Hcall | [Hcall | []]]; [|discriminate].
    destruct (Hall _ Hcall) as [Hrange Hctx].
    simpl in Hctx. rewrite Nat.sub_0_r in Hctx.
    destruct n as [|k]; [lia|].
    simpl. rewrite Nat.sub_0_r.
    destruct (nth_error (allSteps st) k) as [e|] eqn:Hnth.
    + destruct (inv_steps _ _ _ _ _ Hinv _ _ Hnth) as (Hi & _ & Hfb).
      exists e. split; [reflexivity|]. split; [exact Hi|].
      split; [exact Hfb|].
      rewrite Hctx. unfold contextMessages, injectedBefore, feedbackNote.
      simpl. rewrite Hnth, <- app_assoc. reflexivity.
    + apply nth_error_None in Hnth. lia.
  - intros e Hin.
    destruct (recorded_index cfg js svc messages st e Hinv Hin)
      as [Hrange Hnth].
    destruct (inv_called _ _ _ _ _ Hinv _ _ Hnth) as [Hcall _].
    replace (S (es_stepIndex e - 1)) with (es_stepIndex e) in Hcall by lia.
    eexists. apply in_or_app. left. exact Hcall.
Qed.

(** C7. The handler returns, and its outbound stream is the recorded steps
    in order followed by one text event: the answer of the synthesis model
    when that call succeeds; when it fails, the text "Error generating final
    synthesis. Please review the reasoning steps above.". *)
Theorem one_text_event_after_all_steps :
  exists s answer,
    POST = Some s
    /\ dataStream s
       = (map ReasoningStepData (allSteps s) ++ [TextData answer])%list
    /\ textEvents (dataStream s) = [answer]
    /\ (forall text,
          synthesisModel svc (synthesisMessages messages s) = Some text ->
          answer = text)
    /\ (synthesisModel svc (synthesisMessages messages s) = None ->
        answer
        = "Error generating final synthesis. Please review the reasoning steps above.").
Proof.
  destruct (POST_session cfg js svc messages) as (st & Hinv & Hexit & Hpost).
  destruct (synthesis_loop_state svc messages st) as (_ & Hsteps & _).
  destruct (synthesis_stream svc messages st)
    as (answer & Hstream & Hok & Hfail).
  exists (synthesis st), answer. split; [exact Hpost|].
  rewrite Hstream, Hsteps, (inv_stream _ _ _ _ _ Hinv).
  split; [reflexivity|]. split; [apply textEvents_steps_then_text|].
  split; [exact Hok|].
  intros Hfailed. rewrite (Hfail Hfailed). reflexivity.
Qed.

End Claims.

(** C9. When the call to the feedback model fails, [generateDharmaFeedback]
    returns the text of [generateSimpleFeedback] on the current sub-scores
    and the target; that text is not empty, and two failing invocations on
    the same sub-scores and target return the same text, whatever the
    history, the rationale, the model and the built-ins. *)
Theorem feedback_fallback_is_deterministic
    (js1 js2 : Builtins) (llm1 llm2 : FeedbackModel)
    (current1 current2 : DharmaEvaluation)
    (history1 history2 : list ScoreHistoryEntry) (target : Q) :
  llm1 current1 history1 target = None ->
  llm2 current2 history2 target = None ->
  scoresOf current1 = scoresOf current2 ->
  generateDharmaFeedback js1 llm1 current1 history1 target
  = generateSimpleFeedback (scoresOf current1) target
  /\ generateDharmaFeedback js1 llm1 current1 history1 target <> ""
  /\ generateDharmaFeedback js1 llm1 current1 history1 target
     = generateDharmaFeedback js2 llm2 current2 history2 target.
Proof.
  intros Hfail1 Hfail2 Hscores. unfold generateDharmaFeedback.
  rewrite Hfail1, Hfail2, Hscores.
  split; [reflexivity|]. split; [|reflexivity].
  apply generateSimpleFeedback_nonempty.
Qed.

(** ** The properties on concrete sessions *)

Import Scenario.


(** With a ceiling of two steps and no failing step, two steps are recorded:
    fewer than [MINIMUM_STEPS]. *)
Lemma low_ceiling_ends_below_minimum :
  ~ stepsWithinFloorAndCeiling (config 2) builtins
      (services (replyText "0.1") None (Some "Final answer.")) question.
Proof.
  intros Hclaim.
  destruct (Hclaim
              (sessionOf
                 (POST (config 2) builtins
                    (services (replyText "0.1") None (Some "Final answer."))
                    question)))
    as [_ Hfloor].
  { vm_compute. reflexivity. }
  vm_compute in Hfloor. specialize (Hfloor eq_refl). lia.
Qed.

Lemma steps_between_effective_floor_and_ceiling_witness :
  exists s,
    POST (config 2) builtins
         (services (replyText "0.1") None (Some "Final answer.")) question
    = Some s
    /\ stepErrors (console s) = []
    /\ List.length (allSteps s) = 2%nat.
Proof.
  destruct (steps_between_effective_floor_and_ceiling (config 2) builtins
              (services (replyText "0.1") None (Some "Final answer."))
              question) as (s & Hs & Hceiling & Hfloor).
  assert (Hclean : stepErrors (console s) = []).
  { vm_compute in Hs. injection Hs as <-. reflexivity. }
  specialize (Hfloor Hclean). simpl in Hceiling, Hfloor.
  exists s. split; [exact Hs|]. split; [exact Hclean|]. lia.
Defined.

(** A reply whose payload parses but carries the sub-score 1.5 ends the pass
    in the outer [catch]: no step is recorded. *)
Lemma out_of_range_reply_records_no_step :
  ~ everyResponseYieldsStep (config 10) builtins
      (services (replyText "1.5") None (Some "Final answer.")) question.
Proof.
  intros Hclaim.
  destruct (Hclaim initialSession (replyText "1.5") eq_refl)
    as (e & Hsteps & _).
  vm_compute in Hsteps. discriminate.
Qed.

Lemma unparseable_reply_degrades_invalid_payload_aborts_witness :
  (exists e,
      allSteps (iteration (config 10) builtins
                  (services proseText None (Some "Final answer."))
                  question initialSession) = [e]
      /\ es_content e = proseText
      /\ mindfulness (es_dharma e) = 1 # 2)
  /\ (allSteps (iteration (config 10) builtins
                  (services (replyText "1.5") None (Some "Final answer."))
                  question initialSession) = []
      /\ shouldContinue
           (iteration (config 10) builtins
              (services (replyText "1.5") None (Some "Final answer."))
              question initialSession) = false)
  /\ singleStepSchema_parse (replyJson (3 # 2)) = None.
Proof.
  split; [|split].
  - destruct (unparseable_reply_degrades_invalid_payload_aborts (config 10)
                builtins (services proseText None (Some "Final answer."))
                question initialSession proseText eq_refl)
      as (Hdegraded & _).
    destruct (Hdegraded eq_refl)
      as (e & Hsteps & _ & _ & _ & Hcontent & Hdharma & _).
    exists e. split; [exact Hsteps|]. split; [exact Hcontent|].
    rewrite Hdharma. reflexivity.
  - destruct (unparseable_reply_degrades_invalid_payload_aborts (config 10)
                builtins
                (services (replyText "1.5") None (Some "Final answer."))
                question initialSession (replyText "1.5") eq_refl)
      as (_ & Haborted & _).
    destruct (Haborted (replyJson (3 # 2)) eq_refl eq_refl)
      as (Hsteps & _ & _ & Hstop & _).
    split; assumption.
  - destruct (unparseable_reply_degrades_invalid_payload_aborts (config 10)
                builtins
                (services (replyText "1.5") None (Some "Final answer."))
                question initialSession (replyText "1.5") eq_refl)
      as (_ & _ & Hrange).
    apply (Hrange
             [ ("title", JStr "Analysis"); ("content", JStr "Work");
               ("dharma",
                 JObj [ ("mindfulness", JNum (3 # 2));
                        ("emptiness", JNum (3 # 2));
                        ("nonDuality", JNum (3 # 2));
                        ("boundlessCare", JNum (3 # 2));
                        ("rationale", JStr "self-evaluation") ]) ]
             [ ("mindfulness", JNum (3 # 2));
               ("emptiness", JNum (3 # 2));
               ("nonDuality", JNum (3 # 2));
               ("boundlessCare", JNum (3 # 2));
               ("rationale", JStr "self-evaluation") ]
             "emptiness" (3 # 2)).
    + reflexivity.
    + reflexivity.
    + simpl. auto.
    + reflexivity.
    + unfold Qle. simpl. lia.
Defined.


Lemma feedback_history_is_prior_steps_witness :
  exists s currentScores history target,
    POST (config 2) builtins
         (services (replyText "0.1") None (Some "Final answer.")) question
    = Some s
    /\ In (2%nat, FeedbackCall currentScores history target) (calls s)
    /\ map entry_step history = [1%nat].
Proof.
  destruct (feedback_history_is_prior_steps (config 2) builtins
              (services (replyText "0.1") None (Some "Final answer."))
              question) as (s & Hs & Hcalls & Hcalled).
  assert (Hrun : s = sessionOf
                       (POST (config 2) builtins
                          (services (replyText "0.1") None
                             (Some "Final answer.")) question)).
  { rewrite Hs. reflexivity. }
  destruct (nth_error (allSteps s) 1) as [e|] eqn:He;
    [|rewrite Hrun in He; vm_compute in He; discriminate].
  assert (Hindex : es_stepIndex e = 2%nat).
  { rewrite Hrun in He. vm_compute in He. injection He as <-. reflexivity. }
  pose proof (Hcalled e (nth_error_In _ _ He)) as Hcall.
  rewrite Hindex in Hcall.
  destruct (Hcalls _ _ _ _ Hcall) as (_ & Hsteps & _).
  do 4 eexists. split; [exact Hs|]. split; [exact Hcall|]. exact Hsteps.
Defined.

Lemma injected_feedback_is_previous_step_feedback_witness :
  exists s context e,
    POST (config 2) builtins
         (services (replyText "0.1") None (Some "Final answer.")) question
    = Some s
    /\ In (2%nat, GenerateStepCall context) (calls s)
    /\ nth_error (allSteps s) 0 = Some e
    /\ context
       = (injectedBefore question 1 (es_serverFeedback e)
          ++ [stepInstruction (config 2) 2 (es_serverFeedback e)])%list
    /\ In (1%nat,
           GenerateStepCall (question ++ [stepInstruction (config 2) 1 ""]))
          (calls s).
Proof.
  destruct (injected_feedback_is_previous_step_feedback (config 2) builtins
              (services (replyText "0.1") None (Some "Final answer."))
              question) as (s & Hs & Hfirst & Hinjected & Hcalled).
  assert (Hrun : s = sessionOf
                       (POST (config 2) builtins
                          (services (replyText "0.1") None
                             (Some "Final answer.")) question)).
  { rewrite Hs. reflexivity. }
  destruct (nth_error (allSteps s) 1) as [e2|] eqn:He2;
    [|rewrite Hrun in He2; vm_compute in He2; discriminate].
  assert (Hindex : es_stepIndex e2 = 2%nat).
  { rewrite Hrun in He2. vm_compute in He2. injection He2 as <-.
    reflexivity. }
  destruct (Hcalled e2 (nth_error_In _ _ He2)) as (context & Hcall).
  rewrite Hindex in Hcall.
  destruct (Hinjected 1%nat context (le_n 1) Hcall)
    as (e & Hnth & Hone & _ & Hcontext).
  destruct (Hcalled e (nth_error_In _ _ Hnth)) as (context1 & Hcall1).
  rewrite Hone in Hcall1.
  pose proof (Hfirst context1 Hcall1) as Hcontext1.
  rewrite Hcontext1 in Hcall1.
  exists s, context, e. auto 6.
Defined.

Lemma one_text_event_after_all_steps_witness :
  (exists s,
      POST (config 2) builtins
           (services (replyText "0.1") None (Some "Final answer.")) question
      = Some s
      /\ textEvents (dataStream s) = ["Final answer."])
  /\ (exists s,
        POST (config 2) builtins (services (replyText "0.1") None None)
             question = Some s
        /\ textEvents (dataStream s)
           = ["Error generating final synthesis. Please review the reasoning steps above."]).
Proof.
  split.
  - destruct (one_text_event_after_all_steps (config 2) builtins
                (services (replyText "0.1") None (Some "Final answer."))
                question) as (s & answer & Hs & _ & Htext & Hok & _).
    exists s. split; [exact Hs|].
    rewrite Htext. f_equal. apply Hok. reflexivity.
  - destruct (one_text_event_after_all_steps (config 2) builtins
                (services (replyText "0.1") None None) question)
      as (s & answer & Hs & _ & Htext & _ & Hfail).
    exists s. split; [exact Hs|].
    rewrite Htext. f_equal. apply Hfail. reflexivity.
Defined.

Lemma feedback_fallback_is_deterministic_witness :
  generateDharmaFeedback builtins (fun _ _ _ => None)
    {| mindfulness := 9 # 10; emptiness := 1 # 2; nonDuality := 9 # 10;
       boundlessCare := 9 # 10; rationale := "first" |} [] (3 # 4)
  = "Strengthen emptiness: hold conclusions more lightly, acknowledge uncertainty.".
Proof.
  destruct (feedback_fallback_is_deterministic builtins builtins
              (fun _ _ _ => None) (fun _ _ _ => None)
              {| mindfulness := 9 # 10; emptiness := 1 # 2;
                 nonDuality := 9 # 10; boundlessCare := 9 # 10;
                 rationale := "first" |}
              {| mindfulness := 9 # 10; emptiness := 1 # 2;
                 nonDuality := 9 # 10; boundlessCare := 9 # 10;
                 rationale := "second" |}
              [] [] (3 # 4) eq_refl eq_refl eq_refl) as (Hfallback & _ & _).
  rewrite Hfallback. reflexivity.
Defined.

(** ** The scenarios of the specification *)

(** Target 0.75, ceiling 10, every step scored 0.9: four steps, the last one
    stopped by target_reached. *)
Example scenario_high_scores_four_steps :
  option_map
    (fun s => (List.length (allSteps s), map es_nextStep (allSteps s),
               map tl_terminationReason (stepLogs (console s))))
    (POST (config 10) builtins
          (services (replyText "0.9") None (Some "Final answer.")) question)
  = Some (4%nat,
          [next_continue; next_continue; next_continue; next_finalAnswer],
          [minimum_steps_required; minimum_steps_required;
           minimum_steps_required; target_reached]).
Proof. vm_compute. reflexivity. Qed.

(** Target 0.75, ceiling 5, every step scored 0.1: five steps, stopped by
    max_steps_reached. *)
Example scenario_low_scores_five_steps :
  option_map
    (fun s => (List.length (allSteps s),
               map tl_terminationReason (stepLogs (console s))))
    (POST (config 5) builtins
          (services (replyText "0.1") None (Some "Final answer.")) question)
  = Some (5%nat,
          [minimum_steps_required; minimum_steps_required;
           minimum_steps_required; continuing; max_steps_reached]).
Proof. vm_compute. reflexivity. Qed.

(** ** The extended invariant *)

Section ExtendedFacts.

Variable cfg : Config.
Variable js : Builtins.
Variable svc : Services.
Variable messages : list Message.

Local Abbreviation iteration := (iteration cfg js svc messages).
Local Abbreviation loopCondition := (loopCondition cfg).
Local Abbreviation Invariant := (Invariant cfg js svc messages).
Local Abbreviation ExtendedInvariant :=
  (ExtendedInvariant cfg js svc messages).
Local Abbreviation synthesis := (synthesis svc messages).
Local Abbreviation POST := (POST cfg js svc messages).
Local Abbreviation nextContext st :=
  (contextMessages cfg messages (S (stepIndex st)) (previousFeedback st)).

Lemma validated_in_range (v : json) (s : SingleStep) :
  singleStepSchema_parse v = Some s -> scoresInRange (step_dharma s).
Proof.
  unfold singleStepSchema_parse, bind.
  destruct v as [| | | | |props]; try discriminate.
  destruct (z_string (prop "title" props)); [|discriminate].
  destruct (z_string (prop "content" props)); [|discriminate].
  destruct (prop "dharma" props) as [[| | | | |d]|]; try discriminate.
  destruct (dharmaSchema_parse (Some (JObj d))) as [ev|] eqn:Hev;
    [|discriminate].
  intros H. inversion H; subst. simpl.
  apply dharmaSchema_parse_some in Hev.
  destruct Hev as ([_ Hm] & [_ He] & [_ Hn] & [_ Hb]).
  repeat split; tauto.
Qed.

Lemma generated_in_range (i : nat) (context : list Message)
    (v : SingleStep) :
  generateValidatedStep js svc i context = Some v ->
  scoresInRange (step_dharma v).
Proof.
  unfold generateValidatedStep, bind.
  destruct (stepModel svc context); [|discriminate].
  apply validated_in_range.
Qed.

Lemma aborted_app (c1 c2 : list ConsoleRecord) :
  stepErrors c2 = [] -> aborted (c1 ++ c2) = aborted c1.
Proof.
  intros H. unfold aborted. rewrite stepErrors_app, H, app_nil_r.
  reflexivity.
Qed.

Lemma loopCalls_next (n : nat) :
  loopCalls (S n) false = (loopCalls n false ++ passCalls (S n))%list.
Proof.
  unfold loopCalls. rewrite !app_nil_r, seq_S, flat_map_app. simpl.
  reflexivity.
Qed.

Lemma extended_initial : ExtendedInvariant initialSession.
Proof.
  constructor.
  - apply invariant_initial.
  - constructor.
  - reflexivity.
Qed.

Lemma extended_iteration (st : Session) :
  ExtendedInvariant st -> loopCondition st = true ->
  ExtendedInvariant (iteration st).
Proof.
  intros [Hinv Hrange Hcalls] Hcond.
  pose proof (invariant_iteration cfg js svc messages st Hinv Hcond)
    as Hinv'.
  destruct (loopCondition_true cfg st Hcond) as [Hgo _].
  assert (Hclean : stepErrors (console st) = []
                   /\ stepIndex st = List.length (allSteps st)).
  { destruct (inv_counter _ _ _ _ _ Hinv) as [H | (_ & _ & H)];
      [exact H | congruence]. }
  destruct Hclean as [Herr Hidx].
  assert (Hnot : aborted (console st) = false).
  { unfold aborted. rewrite Herr. reflexivity. }
  rewrite Hnot in Hcalls.
  constructor; [exact Hinv'| |]; revert Hinv'; unfold Route.iteration;
    destruct (generateValidatedStep js svc (S (stepIndex st))
                (nextContext st)) as [v|] eqn:Hgen; intros _; simpl.
  - apply Forall_app. split; [exact Hrange|].
    constructor; [|constructor]. simpl.
    eapply generated_in_range. exact Hgen.
  - exact Hrange.
  - rewrite aborted_app by reflexivity. rewrite Hnot.
    rewrite !map_app, Hcalls, last_length, loopCalls_next, Hidx.
    rewrite <- app_assoc. reflexivity.
  - unfold aborted. rewrite stepErrors_app, Herr. simpl.
    rewrite map_app, Hcalls, Hidx. unfold loopCalls.
    rewrite app_nil_r. reflexivity.
Qed.

(** The handler returns from a session that satisfies the extended
    invariant. *)
Lemma POST_session_extended :
  exists st, ExtendedInvariant st /\ loopCondition st = false
             /\ POST = Some (synthesis st).
Proof.
  destruct (while_enough_fuel cfg js svc messages (DHARMA_MAX_STEPS cfg)
              initialSession) as [st Hrun].
  { simpl. lia. }
  destruct (while_invariant cfg js svc messages ExtendedInvariant
              extended_iteration _ _ _ extended_initial Hrun)
    as [Hext Hexit].
  exists st. split; [exact Hext | split; [exact Hexit|]].
  unfold Route.POST, Route.execute. rewrite Hrun. reflexivity.
Qed.

Lemma mean_between (s : DharmaScores) (lo hi : Q) :
  lo <= s_mindfulness s <= hi ->
  lo <= s_emptiness s <= hi ->
  lo <= s_nonDuality s <= hi ->
  lo <= s_boundlessCare s <= hi ->
  lo <= mean s <= hi.
Proof.
  intros Hm He Hn Hb. unfold mean. split.
  - apply Qle_shift_div_l; [reflexivity|]. lra.
  - apply Qle_shift_div_r; [reflexivity|]. lra.
Qed.

Lemma score_in_range (d : DharmaEvaluation) :
  scoresInRange d -> 0 <= mean (scoresOf d) <= 1.
Proof.
  intros (Hm & He & Hn & Hb). apply mean_between; assumption.
Qed.

(** What the invariant says of one recorded step. *)
Lemma recorded_fields (st : Session) (e : EnrichedStep) :
  Invariant st -> In e (allSteps st) ->
  es_maxSteps e = DHARMA_MAX_STEPS cfg
  /\ es_nextStep e
     = (if fst (decisionOf cfg e) then next_continue else next_finalAnswer)
  /\ (1 <= es_stepIndex e <= List.length (allSteps st))%nat.
Proof.
  intros Hinv Hin.
  destruct (recorded_index cfg js svc messages st e Hinv Hin)
    as [Hrange Hnth].
  destruct (inv_steps _ _ _ _ _ Hinv _ _ Hnth) as (_ & Hshape & _).
  split; [|split; [|exact Hrange]].
  - apply (f_equal es_maxSteps) in Hshape. exact Hshape.
  - apply (f_equal es_nextStep) in Hshape. exact Hshape.
Qed.

(** The last recorded step of a session that left the loop without error
    carries a decision to stop. *)
Lemma clean_exit_last (st : Session) (e : EnrichedStep) :
  Invariant st -> loopCondition st = false ->
  stepErrors (console st) = [] ->
  In e (allSteps st) -> es_stepIndex e = List.length (allSteps st) ->
  fst (decisionOf cfg e) = false.
Proof.
  intros Hinv Hexit Hclean Hin Hlast.
  destruct (clean_exit_steps cfg js svc messages st Hinv Hexit Hclean)
    as [Hidx _].
  unfold Route.loopCondition in Hexit. apply andb_false_iff in Hexit.
  destruct Hexit as [Hstop | Hmax].
  - rewrite <- (inv_latest _ _ _ _ _ Hinv e Hin); [exact Hstop | congruence].
  - apply Nat.ltb_ge in Hmax.
    destruct (terminationLogic_chain cfg (es_stepIndex e) (scoreOf e))
      as (Hceiling & _).
    unfold decisionOf. rewrite Hceiling; [reflexivity | lia].
Qed.

Lemma length_loopCalls (n : nat) (b : bool) :
  List.length (loopCalls n b) = (2 * n + (if b then 1 else 0))%nat.
Proof.
  unfold loopCalls. rewrite length_app.
  assert (Hpasses : forall k, List.length (flat_map passCalls (seq 1 k))
                              = (2 * k)%nat).
  { induction k as [|k IH]; [reflexivity|].
    rewrite seq_S, flat_map_app, length_app, IH. simpl. lia. }
  rewrite Hpasses. destruct b; reflexivity.
Qed.

(** What each reason of the termination logic means. *)
Lemma terminationLogic_reason (i : nat) (score : Q) :
  match snd (terminationLogic cfg i score) with
  | max_steps_reached =>
      (DHARMA_MAX_STEPS cfg <= i)%nat
      /\ fst (terminationLogic cfg i score) = false
  | minimum_steps_required =>
      (i < DHARMA_MAX_STEPS cfg)%nat /\ (i < MINIMUM_STEPS)%nat
      /\ fst (terminationLogic cfg i score) = true
  | target_reached =>
      (MINIMUM_STEPS <= i < DHARMA_MAX_STEPS cfg)%nat
      /\ geb score (DHARMA_TARGET cfg) = true
      /\ fst (terminationLogic cfg i score) = false
  | continuing =>
      (MINIMUM_STEPS <= i < DHARMA_MAX_STEPS cfg)%nat
      /\ geb score (DHARMA_TARGET cfg) = false
      /\ fst (terminationLogic cfg i score) = true
  end.
Proof.
  unfold terminationLogic.
  destruct (DHARMA_MAX_STEPS cfg <=? i)%nat eqn:Hmax;
    [apply Nat.leb_le in Hmax | apply Nat.leb_gt in Hmax].
  - simpl. auto.
  - destruct (i <? MINIMUM_STEPS)%nat eqn:Hmin;
      [apply Nat.ltb_lt in Hmin | apply Nat.ltb_ge in Hmin].
    + simpl. auto.
    + destruct (geb score (DHARMA_TARGET cfg)) eqn:Hq; simpl; auto.
Qed.

Lemma geb_true (a b : Q) : geb a b = true <-> b <= a.
Proof. unfold geb. apply Qle_bool_iff. Qed.

Lemma geb_false (a b : Q) : geb a b = false <-> ~ b <= a.
Proof.
  rewrite <- geb_true. destruct (geb a b); split; congruence.
Qed.

(** A session that left the loop without error and recorded nothing ran
    under a ceiling of zero. *)
Lemma clean_exit_empty (st : Session) :
  Invariant st -> loopCondition st = false ->
  stepErrors (console st) = [] -> allSteps st = [] ->
  DHARMA_MAX_STEPS cfg = 0%nat.
Proof.
  intros Hinv Hexit Hclean Hempty.
  destruct (clean_exit_steps cfg js svc messages st Hinv Hexit Hclean)
    as [Hidx _].
  rewrite Hempty in Hidx. simpl in Hidx.
  unfold Route.loopCondition in Hexit.
  rewrite (inv_fresh _ _ _ _ _ Hinv Hidx), Hidx in Hexit. simpl in Hexit.
  apply Nat.ltb_ge in Hexit. lia.
Qed.

Lemma last_recorded (st : Session) :
  Invariant st -> allSteps st <> [] ->
  exists e, In e (allSteps st)
            /\ es_stepIndex e = List.length (allSteps st).
Proof.
  intros Hinv Hsome.
  destruct (nth_error (allSteps st) (List.length (allSteps st) - 1))
    as [e|] eqn:He.
  - exists e. split; [eapply nth_error_In; exact He|].
    destruct (inv_steps _ _ _ _ _ Hinv _ _ He) as (Hi & _).
    destruct (allSteps st); [contradiction | simpl in *; lia].
  - apply nth_error_None in He.
    destruct (allSteps st); [contradiction | simpl in He; lia].
Qed.

(** When no recorded step reaches the target, a session that left the loop
    without error ran to the ceiling. *)
Lemma below_target_count (st : Session) :
  Invariant st -> loopCondition st = false ->
  stepErrors (console st) = [] ->
  (forall e, In e (allSteps st) -> ~ DHARMA_TARGET cfg <= scoreOf e) ->
  List.length (allSteps st) = DHARMA_MAX_STEPS cfg.
Proof.
  intros Hinv Hexit Hclean Hbelow.
  destruct (allSteps st) as [|e0 rest] eqn:Hsteps.
  - rewrite (clean_exit_empty st Hinv Hexit Hclean Hsteps). reflexivity.
  - rewrite <- Hsteps in *.
    destruct (last_recorded st Hinv) as (e & Hin & Hlast).
    { rewrite Hsteps. discriminate. }
    pose proof (clean_exit_last st e Hinv Hexit Hclean Hin Hlast) as Hstop.
    apply terminationLogic_stop in Hstop.
    pose proof (inv_ceiling _ _ _ _ _ Hinv) as Hceil.
    pose proof (recorded_at_most_attempted cfg js svc messages st Hinv).
    destruct Hstop as [Hmax | [_ Hmet]].
    + lia.
    + exfalso. exact (Hbelow e Hin Hmet).
Qed.

(** When every recorded step reaches the target, at most [MINIMUM_STEPS]
    steps are recorded. *)
Lemma target_met_count (st : Session) :
  Invariant st ->
  (forall e, In e (allSteps st) -> DHARMA_TARGET cfg <= scoreOf e) ->
  (List.length (allSteps st) <= MINIMUM_STEPS)%nat.
Proof.
  intros Hinv Hmet.
  destruct (Nat.le_gt_cases (List.length (allSteps st)) MINIMUM_STEPS)
    as [Hle | Hgt]; [exact Hle | exfalso].
  unfold MINIMUM_STEPS in Hgt.
  destruct (nth_error (allSteps st) 3) as [e|] eqn:He.
  - destruct (inv_steps _ _ _ _ _ Hinv _ _ He) as (Hi & _).
    assert (Hin : In e (allSteps st)) by (eapply nth_error_In; exact He).
    pose proof (inv_ceiling _ _ _ _ _ Hinv) as Hceil.
    pose proof (recorded_at_most_attempted cfg js svc messages st Hinv).
    assert (Hgo : fst (decisionOf cfg e) = true).
    { apply (inv_earlier _ _ _ _ _ Hinv e Hin). lia. }
    destruct (terminationLogic_chain cfg (es_stepIndex e) (scoreOf e))
      as (_ & _ & Hstop & _).
    unfold decisionOf in Hgo. rewrite Hstop in Hgo; try discriminate.
    + lia.
    + unfold MINIMUM_STEPS. lia.
    + apply Hmet. exact Hin.
  - apply nth_error_None in He. lia.
Qed.

Lemma truthy_nonempty (text : string) : text <> "" -> truthy text = true.
Proof. destruct text; [contradiction | reflexivity]. Qed.

Lemma mapi_from_map {A B : Type} (f : A -> nat -> B) (g : A -> B)
    (l : list A) :
  forall i,
    (forall k a, nth_error l k = Some a -> f a (i + k)%nat = g a) ->
    mapi_from i f l = map g l.
Proof.
  induction l as [|a l IH]; intros i Hfg; [reflexivity|].
  simpl. f_equal.
  - rewrite <- (Hfg 0%nat a eq_refl). f_equal. lia.
  - apply IH. intros k b Hk.
    rewrite <- (Hfg (S k) b Hk). f_equal. lia.
Qed.

Lemma page_reads_stream (steps : list EnrichedStep) (answer : string) :
  Page.reasoningSteps
    (Some (map ReasoningStepData steps ++ [TextData answer])%list) = steps
  /\ Page.finalText
       (Some (map ReasoningStepData steps ++ [TextData answer])%list)
     = answer.
Proof.
  unfold Page.reasoningSteps, Page.finalText.
  induction steps as [|e steps [IHsteps IHtext]]; [split; reflexivity|].
  simpl. split; [f_equal; exact IHsteps | exact IHtext].
Qed.

End ExtendedFacts.

(** ** Further properties of the code *)

(** X1. [singleStepSchema.parse] accepts exactly the objects that carry a
    string [title], a string [content] and a [dharma] object with four
    numbers in [0,1] and a string [rationale], and answers these values;
    whatever is not an object is rejected. *)
Theorem singleStepSchema_accepts_exactly :
  (forall (props : list (string * json)) (s : SingleStep),
      singleStepSchema_parse (JObj props) = Some s
      <-> (prop "title" props = Some (JStr (step_title s))
           /\ prop "content" props = Some (JStr (step_content s))
           /\ exists d,
               prop "dharma" props = Some (JObj d)
               /\ prop "mindfulness" d
                  = Some (JNum (mindfulness (step_dharma s)))
               /\ prop "emptiness" d
                  = Some (JNum (emptiness (step_dharma s)))
               /\ prop "nonDuality" d
                  = Some (JNum (nonDuality (step_dharma s)))
               /\ prop "boundlessCare" d
                  = Some (JNum (boundlessCare (step_dharma s)))
               /\ prop "rationale" d
                  = Some (JStr (rationale (step_dharma s)))
               /\ scoresInRange (step_dharma s)))
  /\ (forall v : json,
         (forall props, v <> JObj props) -> singleStepSchema_parse v = None).
Proof.
  split.
  - intros props s. split.
    + unfold singleStepSchema_parse, bind.
      destruct (prop "title" props) as [[| | |t| |]|]; try discriminate.
      destruct (prop "content" props) as [[| | |c| |]|]; try discriminate.
      destruct (prop "dharma" props) as [[| | | | |d]|]; try discriminate.
      cbn [z_string].
      destruct (dharmaSchema_parse (Some (JObj d))) as [ev|] eqn:Hev;
        [|discriminate].
      intros H. inversion H; subst. simpl.
      split; [reflexivity|]. split; [reflexivity|].
      exists d. split; [reflexivity|].
      pose proof (dharmaSchema_parse_some d ev Hev)
        as ([Hm Hm'] & [He He'] & [Hn Hn'] & [Hb Hb']).
      unfold dharmaSchema_parse, bind in Hev.
      rewrite Hm, He, Hn, Hb in Hev.
      destruct (z_number_min_max 0 1 (Some (JNum (mindfulness ev))));
        [|discriminate].
      destruct (z_number_min_max 0 1 (Some (JNum (emptiness ev))));
        [|discriminate].
      destruct (z_number_min_max 0 1 (Some (JNum (nonDuality ev))));
        [|discriminate].
      destruct (z_number_min_max 0 1 (Some (JNum (boundlessCare ev))));
        [|discriminate].
      destruct (prop "rationale" d) as [[| | |r| |]|]; try discriminate.
      simpl in Hev. inversion Hev; subst. simpl.
      repeat split; tauto.
    + intros (Ht & Hc & d & Hd & Hm & He & Hn & Hb & Hr & Hrange).
      destruct Hrange as ([Hm0 Hm1] & [He0 He1] & [Hn0 Hn1] & [Hb0 Hb1]).
      apply Qle_bool_iff in Hm0, Hm1, He0, He1, Hn0, Hn1, Hb0, Hb1.
      unfold singleStepSchema_parse, dharmaSchema_parse, bind.
      rewrite Ht, Hc, Hd, Hm, He, Hn, Hb, Hr. simpl.
      rewrite Hm0, Hm1, He0, He1, Hn0, Hn1, Hb0, Hb1. simpl.
      destruct s as [t c [m e n b r]]. reflexivity.
  - intros v Hnot. destruct v; try reflexivity.
    exfalso. eapply Hnot. reflexivity.
Qed.

(** X10. The fallback feedback is the all-aligned message exactly when no
    sub-score is below the target, and then the aggregate score reaches the
    target as well. *)
Theorem fallback_all_aligned_iff (s : DharmaScores) (target : Q) :
  (generateSimpleFeedback s target
   = "Strong alignment across all principles. Maintain this contemplative depth."
   <-> (target <= s_mindfulness s
        /\ target <= s_emptiness s
        /\ target <= s_nonDuality s
        /\ target <= s_boundlessCare s))
  /\ (generateSimpleFeedback s target
      = "Strong alignment across all principles. Maintain this contemplative depth."
      -> target <= mean s).
Proof.
  assert (Hiff :
    generateSimpleFeedback s target
    = "Strong alignment across all principles. Maintain this contemplative depth."
    <-> (target <= s_mindfulness s
         /\ target <= s_emptiness s
         /\ target <= s_nonDuality s
         /\ target <= s_boundlessCare s)).
  { unfold generateSimpleFeedback, ltb.
    rewrite <- !Qle_bool_iff.
    destruct (Qle_bool target (s_mindfulness s)),
      (Qle_bool target (s_emptiness s)),
      (Qle_bool target (s_nonDuality s)),
      (Qle_bool target (s_boundlessCare s)); simpl;
      (split; [intros H; try discriminate H; auto
              | intros (H1 & H2 & H3 & H4);
                try discriminate; reflexivity]). }
  split; [exact Hiff|].
  intros Haligned. apply Hiff in Haligned.
  destruct Haligned as (Hm & He & Hn & Hb).
  unfold mean. apply Qle_shift_div_l; [reflexivity|]. lra.
Qed.


Section Extras.

Variable cfg : Config.
Variable js : Builtins.
Variable svc : Services.
Variable messages : list Message.

Local Abbreviation iteration := (iteration cfg js svc messages).
Local Abbreviation synthesis := (synthesis svc messages).
Local Abbreviation POST := (POST cfg js svc messages).

(** X2. Every step the handler recorded has its four sub-scores, and so
    its aggregate score, in [0,1]; so does every score-history entry. *)
Theorem recorded_scores_in_unit_interval :
  exists s,
    POST = Some s
    /\ (forall e, In e (allSteps s) ->
                  scoresInRange (es_dharma e) /\ 0 <= scoreOf e <= 1)
    /\ (forall h, In h (scoreHistory s) -> 0 <= entry_mean h <= 1).
Proof.
  destruct (POST_session_extended cfg js svc messages)
    as (st & [Hinv Hrange _] & _ & Hpost).
  destruct (synthesis_loop_state svc messages st)
    as (_ & Hsteps & Hhistory & _).
  exists (synthesis st). split; [exact Hpost|].
  rewrite Hsteps, Hhistory. rewrite Forall_forall in Hrange.
  split.
  - intros e Hin. split; [apply Hrange; exact Hin|].
    apply score_in_range. apply Hrange. exact Hin.
  - intros h Hin. rewrite (inv_history _ _ _ _ _ Hinv) in Hin.
    apply in_map_iff in Hin. destruct Hin as (e & <- & Hin).
    simpl. apply score_in_range. apply Hrange. exact Hin.
Qed.

(** X3. The recorded steps carry the indices 1, 2, ... in order, never
    above the ceiling, and each carries the ceiling as its [maxSteps]; the
    score history carries the same indices. *)
Theorem recorded_steps_numbered_in_order :
  exists s,
    POST = Some s
    /\ map es_stepIndex (allSteps s) = seq 1 (List.length (allSteps s))
    /\ map entry_step (scoreHistory s) = seq 1 (List.length (allSteps s))
    /\ (List.length (allSteps s) <= DHARMA_MAX_STEPS cfg)%nat
    /\ Forall (fun e => es_maxSteps e = DHARMA_MAX_STEPS cfg) (allSteps s).
Proof.
  destruct (POST_session cfg js svc messages) as (st & Hinv & _ & Hpost).
  destruct (synthesis_loop_state svc messages st)
    as (_ & Hsteps & Hhistory & _).
  exists (synthesis st). split; [exact Hpost|].
  rewrite Hsteps, Hhistory.
  split; [apply (recorded_indices cfg js svc messages); exact Hinv|].
  split.
  { rewrite (inv_history _ _ _ _ _ Hinv), <- historyBefore_all.
    apply (historyBefore_steps cfg js svc messages); [exact Hinv | lia]. }
  split.
  { pose proof (inv_ceiling _ _ _ _ _ Hinv).
    pose proof (recorded_at_most_attempted cfg js svc messages st Hinv).
    lia. }
  apply Forall_forall. intros e Hin.
  apply (recorded_fields cfg js svc messages st e Hinv Hin).
Qed.

(** X4. Every recorded step but the last is marked [continue].  When no
    step error was logged the last recorded step is marked [finalAnswer];
    when one was logged, every recorded step is marked [continue]. *)
Theorem only_last_step_marked_final :
  exists s,
    POST = Some s
    /\ (forall e, In e (allSteps s) ->
                  (es_stepIndex e < List.length (allSteps s))%nat ->
                  es_nextStep e = next_continue)
    /\ (stepErrors (console s) = [] ->
        forall e, In e (allSteps s) ->
                  es_stepIndex e = List.length (allSteps s) ->
                  es_nextStep e = next_finalAnswer)
    /\ (stepErrors (console s) <> [] ->
        forall e, In e (allSteps s) -> es_nextStep e = next_continue).
Proof.
  destruct (POST_session cfg js svc messages)
    as (st & Hinv & Hexit & Hpost).
  destruct (synthesis_loop_state svc messages st)
    as (_ & Hsteps & _ & Herr & _).
  exists (synthesis st). split; [exact Hpost|].
  rewrite Hsteps, Herr.
  pose proof (recorded_at_most_attempted cfg js svc messages st Hinv)
    as Hle.
  split; [|split].
  - intros e Hin Hlt.
    destruct (recorded_fields cfg js svc messages st e Hinv Hin)
      as (_ & Hnext & _).
    rewrite Hnext, (inv_earlier _ _ _ _ _ Hinv e Hin); [reflexivity | lia].
  - intros Hclean e Hin Hlast.
    destruct (recorded_fields cfg js svc messages st e Hinv Hin)
      as (_ & Hnext & _).
    rewrite Hnext.
    rewrite (clean_exit_last cfg js svc messages st e Hinv Hexit Hclean
               Hin Hlast).
    reflexivity.
  - intros Herrors e Hin.
    destruct (recorded_fields cfg js svc messages st e Hinv Hin)
      as (_ & Hnext & Hrange).
    destruct (inv_counter _ _ _ _ _ Hinv) as [[Hnone _] | (_ & Hcount & _)];
      [contradiction|].
    rewrite Hnext, (inv_earlier _ _ _ _ _ Hinv e Hin); [reflexivity | lia].
Qed.

(** X5. The model calls of a session are, in this order: for each
    recorded step its generation call and then its feedback call; after a
    step error, the generation call that failed; last, one synthesis call.
    So a session makes at most twice the ceiling plus one calls. *)
Theorem model_calls_in_sequence :
  exists s,
    POST = Some s
    /\ map callTag (calls s)
       = (loopCalls (List.length (allSteps s)) (aborted (console s))
          ++ [(stepIndex s, FinalSynthesis)])%list
    /\ (List.length (calls s) <= 2 * DHARMA_MAX_STEPS cfg + 1)%nat.
Proof.
  destruct (POST_session_extended cfg js svc messages)
    as (st & [Hinv _ Hcalls] & _ & Hpost).
  destruct (synthesis_loop_state svc messages st)
    as (Hidx & Hsteps & _ & Herr & _ & Hlog).
  exists (synthesis st). split; [exact Hpost|].
  assert (Hshape :
    map callTag (calls (synthesis st))
    = (loopCalls (List.length (allSteps st)) (aborted (console st))
       ++ [(stepIndex st, FinalSynthesis)])%list).
  { rewrite Hlog, map_app, Hcalls. reflexivity. }
  split.
  - rewrite Hshape, Hsteps, Hidx. unfold aborted. rewrite Herr. reflexivity.
  - rewrite <- (length_map callTag), Hshape, length_app, length_loopCalls.
    simpl.
    pose proof (inv_ceiling _ _ _ _ _ Hinv) as Hceil.
    unfold aborted.
    destruct (inv_counter _ _ _ _ _ Hinv)
      as [[Hnone Hcount] | (Hone & Hcount & _)].
    + rewrite Hnone. lia.
    + rewrite Hone. lia.
Qed.



(** X8. Under a target above 1 no step ever reaches the target: no
    telemetry record carries target_reached or the target-reached flag, and
    a session without step error records exactly [DHARMA_MAX_STEPS] steps. *)
Theorem target_above_one_never_reached :
  1 < DHARMA_TARGET cfg ->
  exists s,
    POST = Some s
    /\ (forall t, In t (stepLogs (console s)) ->
                  tl_terminationReason t <> target_reached
                  /\ tl_targetReached t = false)
    /\ (stepErrors (console s) = [] ->
        List.length (allSteps s) = DHARMA_MAX_STEPS cfg).
Proof.
  intros Htarget.
  destruct (POST_session_extended cfg js svc messages)
    as (st & [Hinv Hrange _] & Hexit & Hpost).
  destruct (synthesis_loop_state svc messages st)
    as (_ & Hsteps & _ & Herr & Hlogs & _).
  exists (synthesis st). split; [exact Hpost|].
  rewrite Hsteps, Herr, Hlogs. rewrite Forall_forall in Hrange.
  assert (Hbelow : forall e, In e (allSteps st) ->
                             ~ DHARMA_TARGET cfg <= scoreOf e).
  { intros e Hin Hmet.
    pose proof (score_in_range _ (Hrange e Hin)) as [_ Hone].
    unfold scoreOf in Hmet. lra. }
  split.
  - intros t Hin. rewrite (inv_logs _ _ _ _ _ Hinv) in Hin.
    apply in_map_iff in Hin. destruct Hin as (e & <- & Hin).
    assert (Hflag : geb (scoreOf e) (DHARMA_TARGET cfg) = false).
    { apply geb_false. apply Hbelow. exact Hin. }
    split; [|exact Hflag].
    simpl. intros Hreason.
    pose proof (terminationLogic_reason cfg (es_stepIndex e) (scoreOf e))
      as Hmeaning.
    unfold decisionOf in Hreason. rewrite Hreason in Hmeaning.
    destruct Hmeaning as (_ & Hmet & _). congruence.
  - intros Hclean.
    apply (below_target_count cfg js svc messages st); assumption.
Qed.

(** X9. Under a target of zero or less every step reaches the target: every
    telemetry record carries the target-reached flag, at most
    [MINIMUM_STEPS] steps are recorded, and a session without step error
    records exactly the smaller of [MINIMUM_STEPS] and [DHARMA_MAX_STEPS]. *)
Theorem target_at_most_zero_always_reached :
  DHARMA_TARGET cfg <= 0 ->
  exists s,
    POST = Some s
    /\ (forall t, In t (stepLogs (console s)) -> tl_targetReached t = true)
    /\ (List.length (allSteps s) <= MINIMUM_STEPS)%nat
    /\ (stepErrors (console s) = [] ->
        List.length (allSteps s)
        = Nat.min MINIMUM_STEPS (DHARMA_MAX_STEPS cfg)).
Proof.
  intros Htarget.
  destruct (POST_session_extended cfg js svc messages)
    as (st & [Hinv Hrange _] & Hexit & Hpost).
  destruct (synthesis_loop_state svc messages st)
    as (_ & Hsteps & _ & Herr & Hlogs & _).
  exists (synthesis st). split; [exact Hpost|].
  rewrite Hsteps, Herr, Hlogs. rewrite Forall_forall in Hrange.
  assert (Hmet : forall e, In e (allSteps st) ->
                           DHARMA_TARGET cfg <= scoreOf e).
  { intros e Hin.
    pose proof (score_in_range _ (Hrange e Hin)) as [Hzero _].
    unfold scoreOf. lra. }
  pose proof (target_met_count cfg js svc messages st Hinv Hmet) as Hupper.
  split; [|split; [exact Hupper|]].
  - intros t Hin. rewrite (inv_logs _ _ _ _ _ Hinv) in Hin.
    apply in_map_iff in Hin. destruct Hin as (e & <- & Hin).
    simpl. apply geb_true. apply Hmet. exact Hin.
  - intros Hclean.
    destruct (clean_exit_steps cfg js svc messages st Hinv Hexit Hclean)
      as [Hidx Hlower].
    pose proof (inv_ceiling _ _ _ _ _ Hinv) as Hceil.
    lia.
Qed.

(** X17. The telemetry has one record per recorded step, in order.  A
    record carries max_steps_reached exactly at the step whose index is the
    ceiling; minimum_steps_required only below [MINIMUM_STEPS], with
    [shouldContinue]; target_reached only from [MINIMUM_STEPS] on, with the
    target-reached flag and without [shouldContinue]; continuing only
    without the flag and with [shouldContinue]. *)
Theorem telemetry_agrees_with_decision :
  exists s,
    POST = Some s
    /\ map tl_stepIndex (stepLogs (console s))
       = seq 1 (List.length (allSteps s))
    /\ forall t, In t (stepLogs (console s)) ->
        (tl_terminationReason t = max_steps_reached
         <-> tl_stepIndex t = DHARMA_MAX_STEPS cfg)
        /\ (tl_terminationReason t = minimum_steps_required ->
            (tl_stepIndex t < MINIMUM_STEPS)%nat
            /\ tl_shouldContinue t = true)
        /\ (tl_terminationReason t = target_reached ->
            (MINIMUM_STEPS <= tl_stepIndex t)%nat
            /\ tl_targetReached t = true
            /\ tl_shouldContinue t = false)
        /\ (tl_terminationReason t = continuing ->
            tl_targetReached t = false /\ tl_shouldContinue t = true).
Proof.
  destruct (POST_session cfg js svc messages) as (st & Hinv & _ & Hpost).
  destruct (synthesis_loop_state svc messages st)
    as (_ & Hsteps & _ & _ & Hlogs & _).
  exists (synthesis st). split; [exact Hpost|].
  rewrite Hsteps, Hlogs, (inv_logs _ _ _ _ _ Hinv). split.
  - rewrite map_map.
    rewrite (map_ext (fun e => tl_stepIndex (telemetryOf cfg js e))
                     es_stepIndex) by reflexivity.
    apply (recorded_indices cfg js svc messages). exact Hinv.
  - intros t Hin. apply in_map_iff in Hin. destruct Hin as (e & <- & Hin).
    destruct (recorded_fields cfg js svc messages st e Hinv Hin)
      as (_ & _ & Hrange).
    pose proof (inv_ceiling _ _ _ _ _ Hinv) as Hceil.
    pose proof (recorded_at_most_attempted cfg js svc messages st Hinv).
    pose proof (terminationLogic_reason cfg (es_stepIndex e) (scoreOf e))
      as Hmeaning.
    simpl. unfold decisionOf.
    destruct (snd (terminationLogic cfg (es_stepIndex e) (scoreOf e)))
      eqn:Hreason.
    + destruct Hmeaning as (Hmax & Hstop).
      repeat split; intros; try discriminate. lia.
    + destruct Hmeaning as (Hmax & Hmin & Hgo).
      repeat split; intros; try discriminate; try lia; assumption.
    + destruct Hmeaning as (Hbounds & Hmet & Hstop).
      repeat split; intros; try discriminate; try lia; assumption.
    + destruct Hmeaning as (Hbounds & Hunmet & Hgo).
      repeat split; intros; try discriminate; try lia; assumption.
Qed.

(** X12. When every call to the feedback model fails, every recorded step
    carries the fallback text for its sub-scores, which is not empty, and
    every generation call after the first carries the conversation, one
    feedback note with the fallback text of the step before, and the
    instruction. *)
Theorem failing_feedback_model_falls_back :
  (forall currentScores history target,
      feedbackModel svc currentScores history target = None) ->
  exists s,
    POST = Some s
    /\ (forall e, In e (allSteps s) ->
                  es_serverFeedback e
                  = generateSimpleFeedback (scoresOf (es_dharma e))
                                           (DHARMA_TARGET cfg)
                  /\ es_serverFeedback e <> "")
    /\ (forall n context,
          (1 <= n)%nat ->
          In (S n, GenerateStepCall context) (calls s) ->
          exists e,
            nth_error (allSteps s) (n - 1) = Some e
            /\ context
               = (messages
                  ++ [feedbackNote (S n) (es_serverFeedback e);
                      stepInstruction cfg (S n) (es_serverFeedback e)])%list).
Proof.
  intros Hfails.
  destruct (POST_session cfg js svc messages) as (st & Hinv & _ & Hpost).
  destruct (synthesis_loop_state svc messages st)
    as (_ & Hsteps & _ & _ & _ & Hcalls).
  exists (synthesis st). split; [exact Hpost|].
  rewrite Hsteps, Hcalls.
  assert (Hfallback : forall e, In e (allSteps st) ->
            es_serverFeedback e
            = generateSimpleFeedback (scoresOf (es_dharma e))
                                     (DHARMA_TARGET cfg)
            /\ es_serverFeedback e <> "").
  { intros e Hin.
    destruct (recorded_index cfg js svc messages st e Hinv Hin)
      as [_ Hnth].
    destruct (inv_steps _ _ _ _ _ Hinv _ _ Hnth) as (_ & _ & Hfb).
    unfold generateDharmaFeedback in Hfb. rewrite Hfails in Hfb.
    split; [exact Hfb|]. rewrite Hfb.
    apply generateSimpleFeedback_nonempty. }
  split; [exact Hfallback|].
  intros n context Hn Hcall. apply in_app_or in Hcall.
  destruct Hcall as [Hcall | [Hcall | []]]; [|discriminate].
  pose proof (inv_calls _ _ _ _ _ Hinv) as Hall.
  rewrite Forall_forall in Hall.
  destruct (Hall _ Hcall) as [Hrange Hctx].
  simpl in Hctx. rewrite Nat.sub_0_r in Hctx.
  destruct n as [|k]; [lia|]. simpl. rewrite Nat.sub_0_r.
  destruct (nth_error (allSteps st) k) as [e|] eqn:Hnth.
  - exists e. split; [reflexivity|].
    destruct (Hfallback e (nth_error_In _ _ Hnth)) as [_ Hnonempty].
    rewrite Hctx. unfold contextMessages. simpl. rewrite Hnth.
    rewrite (truthy_nonempty _ Hnonempty). reflexivity.
  - apply nth_error_None in Hnth. lia.
Qed.

(** X13. The feedback model has no part in the outcome of the pass that
    calls it: with the same step model, two passes from the same session
    validate the same step, record the same scores, take the same decision
    and log the same step errors, whatever their feedback models answer. *)
Theorem feedback_model_does_not_affect_decision
    (svc1 svc2 : Services) (st : Session) :
  (forall context, stepModel svc1 context = stepModel svc2 context) ->
  shouldContinue (Route.iteration cfg js svc1 messages st)
  = shouldContinue (Route.iteration cfg js svc2 messages st)
  /\ scoreHistory (Route.iteration cfg js svc1 messages st)
     = scoreHistory (Route.iteration cfg js svc2 messages st)
  /\ map validatedOf (allSteps (Route.iteration cfg js svc1 messages st))
     = map validatedOf (allSteps (Route.iteration cfg js svc2 messages st))
  /\ map es_nextStep (allSteps (Route.iteration cfg js svc1 messages st))
     = map es_nextStep (allSteps (Route.iteration cfg js svc2 messages st))
  /\ stepErrors (console (Route.iteration cfg js svc1 messages st))
     = stepErrors (console (Route.iteration cfg js svc2 messages st)).
Proof.
  intros Hsame. unfold Route.iteration, generateValidatedStep, bind.
  rewrite Hsame.
  destruct (stepModel svc2
              (contextMessages cfg messages (S (stepIndex st))
                               (previousFeedback st))) as [text|];
    [|repeat split].
  destruct (singleStepSchema_parse (parseStepData js (S (stepIndex st)) text));
    simpl; rewrite ?map_app, ?stepErrors_app; repeat split.
Qed.

(** X14. From the data the handler wrote, the page reads back the recorded
    steps, in order, as its reasoning steps, and the text event as its final
    text: the answer of the synthesis model, or the diagnostic text when
    that call failed. *)
Theorem page_reads_steps_and_answer :
  exists s answer,
    POST = Some s
    /\ Page.reasoningSteps (Some (dataStream s)) = allSteps s
    /\ Page.finalText (Some (dataStream s)) = answer
    /\ (forall text,
          synthesisModel svc (synthesisMessages messages s) = Some text ->
          answer = text)
    /\ (synthesisModel svc (synthesisMessages messages s) = None ->
        answer = synthesisErrorText).
Proof.
  destruct (POST_session cfg js svc messages) as (st & Hinv & _ & Hpost).
  destruct (synthesis_loop_state svc messages st) as (_ & Hsteps & _).
  destruct (synthesis_stream svc messages st)
    as (answer & Hstream & Hok & Hfail).
  exists (synthesis st), answer. split; [exact Hpost|].
  rewrite Hstream, Hsteps, (inv_stream _ _ _ _ _ Hinv).
  destruct (page_reads_stream (allSteps st) answer) as [Hread Htext].
  repeat split; assumption.
Qed.

(** X15. The card of every recorded step shows its index over the ceiling,
    the index being between 1 and the ceiling (the question mark that
    stands for a missing ceiling never shows), and has the model scores.  A
    card labelled FINAL is the card of the last recorded step, in a session
    without step error. *)
Theorem step_cards_show_index_over_ceiling :
  exists s,
    POST = Some s
    /\ forall e, In e (allSteps s) ->
        StepCard.badge (StepCard.received e)
        = Some (showNat (es_stepIndex e) ++ "/"
                ++ showNat (DHARMA_MAX_STEPS cfg))
        /\ (1 <= es_stepIndex e <= DHARMA_MAX_STEPS cfg)%nat
        /\ StepCard.hasModelScores (StepCard.received e) = true
        /\ (StepCard.decisionLabel (StepCard.received e) = "FINAL" ->
            es_stepIndex e = List.length (allSteps s)
            /\ stepErrors (console s) = []).
Proof.
  destruct (POST_session cfg js svc messages) as (st & Hinv & _ & Hpost).
  destruct (synthesis_loop_state svc messages st)
    as (_ & Hsteps & _ & Herr & _).
  exists (synthesis st). split; [exact Hpost|].
  rewrite Hsteps, Herr. intros e Hin.
  destruct (recorded_fields cfg js svc messages st e Hinv Hin)
    as (Hmax & Hnext & Hrange).
  pose proof (inv_ceiling _ _ _ _ _ Hinv) as Hceil.
  pose proof (recorded_at_most_attempted cfg js svc messages st Hinv)
    as Hle.
  split.
  { unfold StepCard.badge. simpl. rewrite Hmax.
    destruct (DHARMA_MAX_STEPS cfg); [lia | reflexivity]. }
  split; [lia|]. split; [reflexivity|].
  unfold StepCard.decisionLabel. simpl. rewrite Hnext.
  destruct (fst (decisionOf cfg e)) eqn:Hgo; [discriminate|].
  intros _.
  assert (Hlast : ~ (es_stepIndex e < stepIndex st)%nat).
  { intros Hlt.
    rewrite (inv_earlier _ _ _ _ _ Hinv e Hin Hlt) in Hgo. discriminate. }
  destruct (inv_counter _ _ _ _ _ Hinv) as [[Hnone Hcount] | (_ & Hcount & _)].
  - split; [lia | exact Hnone].
  - lia.
Qed.

(** X18. Every generation context starts with the conversation of the
    request, unchanged, ends with the instruction for its step, and has at
    most one message in between, a feedback note: the steps recorded so far
    are not carried along. *)
Theorem generation_context_extends_conversation :
  exists s,
    POST = Some s
    /\ forall n context,
        In (n, GenerateStepCall context) (calls s) ->
        firstn (List.length messages) context = messages
        /\ (List.length messages + 1 <= List.length context
            <= List.length messages + 2)%nat
        /\ exists feedback,
            nth_error context (List.length context - 1)
            = Some (stepInstruction cfg n feedback)
            /\ (List.length context = (List.length messages + 2)%nat ->
                nth_error context (List.length messages)
                = Some (feedbackNote n feedback)).
Proof.
  destruct (POST_session cfg js svc messages) as (st & Hinv & _ & Hpost).
  destruct (synthesis_loop_state svc messages st)
    as (_ & _ & _ & _ & _ & Hcalls).
  exists (synthesis st). split; [exact Hpost|].
  rewrite Hcalls. intros n context Hcall. apply in_app_or in Hcall.
  destruct Hcall as [Hcall | [Hcall | []]]; [|discriminate].
  pose proof (inv_calls _ _ _ _ _ Hinv) as Hall.
  rewrite Forall_forall in Hall.
  destruct (Hall _ Hcall) as [_ Hctx]. simpl in Hctx.
  set (feedback := feedbackOf (allSteps st) (n - 1)) in Hctx.
  rewrite Hctx. unfold contextMessages.
  split; [|split].
  - rewrite firstn_app, firstn_all, Nat.sub_diag. simpl.
    apply app_nil_r.
  - rewrite !length_app. simpl.
    destruct ((1 <? n)%nat && truthy feedback); simpl; lia.
  - exists feedback. split.
    + rewrite app_assoc, last_length, Nat.sub_1_r. simpl.
      apply nth_error_snoc_new.
    + rewrite !length_app. simpl.
      destruct ((1 <? n)%nat && truthy feedback); simpl; [|lia].
      intros _. rewrite nth_error_app2 by lia.
      rewrite Nat.sub_diag. reflexivity.
Qed.

End Extras.

(** ** The further properties on concrete sessions *)

Lemma singleStepSchema_accepts_exactly_witness :
  singleStepSchema_parse (replyJson (9 # 10))
  = Some {| step_title := "Analysis";
            step_content := "Work";
            step_dharma :=
              {| mindfulness := 9 # 10;
                 emptiness := 9 # 10;
                 nonDuality := 9 # 10;
                 boundlessCare := 9 # 10;
                 rationale := "self-evaluation" |} |}
  /\ singleStepSchema_parse (JStr "plain text") = None.
Proof.
  destruct singleStepSchema_accepts_exactly as [Hobject Hother].
  split.
  - apply Hobject. simpl.
    split; [reflexivity|]. split; [reflexivity|].
    eexists. split; [reflexivity|].
    repeat (split; [reflexivity|]).
    unfold scoresInRange, Qle. simpl. lia.
  - apply Hother. intros props. discriminate.
Defined.

Lemma recorded_scores_in_unit_interval_witness :
  exists s e,
    POST (config 2) builtins
         (services (replyText "0.9") None (Some "Final answer.")) question
    = Some s
    /\ nth_error (allSteps s) 0 = Some e
    /\ 0 <= scoreOf e <= 1.
Proof.
  destruct (recorded_scores_in_unit_interval (config 2) builtins
              (services (replyText "0.9") None (Some "Final answer."))
              question) as (s & Hs & Hrange & _).
  destruct (nth_error (allSteps s) 0) as [e|] eqn:He;
    [|vm_compute in Hs; injection Hs as <-; discriminate He].
  exists s, e. split; [exact Hs|]. split; [exact He|].
  apply Hrange. eapply nth_error_In. exact He.
Defined.

Lemma only_last_step_marked_final_witness :
  exists s,
    POST (config 5) builtins
         (services (replyText "0.1") None (Some "Final answer.")) question
    = Some s
    /\ map es_nextStep (allSteps s)
       = [next_continue; next_continue; next_continue; next_continue;
          next_finalAnswer].
Proof.
  destruct (only_last_step_marked_final (config 5) builtins
              (services (replyText "0.1") None (Some "Final answer."))
              question) as (s & Hs & Hearlier & Hlast & _).
  exists s. split; [exact Hs|].
  assert (Hrun : stepErrors (console s) = []
                 /\ map es_stepIndex (allSteps s) = [1; 2; 3; 4; 5]%nat).
  { vm_compute in Hs. injection Hs as <-. split; reflexivity. }
  destruct Hrun as [Hclean Hindices].
  specialize (Hlast Hclean).
  destruct (allSteps s) as [|e1 [|e2 [|e3 [|e4 [|e5 [|e6 rest]]]]]];
    try discriminate Hindices.
  injection Hindices as H1 H2 H3 H4 H5.
  simpl in Hearlier, Hlast. simpl.
  rewrite (Hearlier e1), (Hearlier e2), (Hearlier e3), (Hearlier e4),
    (Hlast e5); auto 6; lia.
Defined.



Lemma target_above_one_never_reached_witness :
  exists s,
    POST (configWith (3 # 2) 6) builtins
         (services (replyText "0.9") None (Some "Final answer.")) question
    = Some s
    /\ List.length (allSteps s) = 6%nat.
Proof.
  destruct (target_above_one_never_reached (configWith (3 # 2) 6) builtins
              (services (replyText "0.9") None (Some "Final answer."))
              question) as (s & Hs & _ & Hcount).
  { vm_compute. reflexivity. }
  exists s. split; [exact Hs|]. apply Hcount.
  vm_compute in Hs. injection Hs as <-. reflexivity.
Defined.

Lemma target_at_most_zero_always_reached_witness :
  exists s,
    POST (configWith 0 10) builtins
         (services (replyText "0.1") None (Some "Final answer.")) question
    = Some s
    /\ List.length (allSteps s) = 4%nat.
Proof.
  destruct (target_at_most_zero_always_reached (configWith 0 10) builtins
              (services (replyText "0.1") None (Some "Final answer."))
              question) as (s & Hs & _ & _ & Hcount).
  { vm_compute. intros Hgt. discriminate Hgt. }
  exists s. split; [exact Hs|]. apply Hcount.
  vm_compute in Hs. injection Hs as <-. reflexivity.
Defined.

Lemma fallback_all_aligned_iff_witness :
  generateSimpleFeedback
    {| s_mindfulness := 9 # 10; s_emptiness := 4 # 5;
       s_nonDuality := 3 # 4; s_boundlessCare := 1 |} (3 # 4)
  = "Strong alignment across all principles. Maintain this contemplative depth."
  /\ (3 # 4) <= mean {| s_mindfulness := 9 # 10; s_emptiness := 4 # 5;
                        s_nonDuality := 3 # 4; s_boundlessCare := 1 |}.
Proof.
  destruct (fallback_all_aligned_iff
              {| s_mindfulness := 9 # 10; s_emptiness := 4 # 5;
                 s_nonDuality := 3 # 4; s_boundlessCare := 1 |} (3 # 4))
    as [Hiff Hmean].
  assert (Haligned :
    generateSimpleFeedback
      {| s_mindfulness := 9 # 10; s_emptiness := 4 # 5;
         s_nonDuality := 3 # 4; s_boundlessCare := 1 |} (3 # 4)
    = "Strong alignment across all principles. Maintain this contemplative depth.").
  { apply Hiff. simpl. unfold Qle. simpl. lia. }
  split; [exact Haligned | exact (Hmean Haligned)].
Defined.


Lemma failing_feedback_model_falls_back_witness :
  exists s e,
    POST (config 2) builtins
         (services (replyText "0.9") None (Some "Final answer.")) question
    = Some s
    /\ nth_error (allSteps s) 0 = Some e
    /\ es_serverFeedback e
       = "Strong alignment across all principles. Maintain this contemplative depth.".
Proof.
  destruct (failing_feedback_model_falls_back (config 2) builtins
              (services (replyText "0.9") None (Some "Final answer."))
              question) as (s & Hs & Hfallback & _).
  { intros currentScores history target. reflexivity. }
  destruct (nth_error (allSteps s) 0) as [e|] eqn:He;
    [|vm_compute in Hs; injection Hs as <-; discriminate He].
  exists s, e. split; [exact Hs|]. split; [exact He|].
  destruct (Hfallback e (nth_error_In _ _ He)) as [Htext _].
  rewrite Htext.
  vm_compute in Hs. injection Hs as <-.
  vm_compute in He. injection He as <-. reflexivity.
Defined.

Lemma feedback_model_does_not_affect_decision_witness :
  shouldContinue
    (iteration (config 10) builtins
       (services (replyText "0.9") (Some "Question your framing.")
          (Some "Final answer."))
       question afterThreeSteps)
  = shouldContinue
      (iteration (config 10) builtins
         (services (replyText "0.9") None (Some "Final answer."))
         question afterThreeSteps).
Proof.
  apply (feedback_model_does_not_affect_decision (config 10) builtins
           question
           (services (replyText "0.9") (Some "Question your framing.")
              (Some "Final answer."))
           (services (replyText "0.9") None (Some "Final answer."))
           afterThreeSteps).
  intros context. reflexivity.
Defined.

Lemma page_reads_steps_and_answer_witness :
  exists s,
    POST (config 2) builtins
         (services (replyText "0.1") None (Some "Final answer.")) question
    = Some s
    /\ Page.reasoningSteps (Some (dataStream s)) = allSteps s
    /\ Page.finalText (Some (dataStream s)) = "Final answer.".
Proof.
  destruct (page_reads_steps_and_answer (config 2) builtins
              (services (replyText "0.1") None (Some "Final answer."))
              question) as (s & answer & Hs & Hsteps & Htext & Hok & _).
  exists s. split; [exact Hs|]. split; [exact Hsteps|].
  rewrite Htext. apply Hok. reflexivity.
Defined.

Lemma step_cards_show_index_over_ceiling_witness :
  exists s e,
    POST (config 2) builtins
         (services (replyText "0.1") None (Some "Final answer.")) question
    = Some s
    /\ nth_error (allSteps s) 1 = Some e
    /\ StepCard.badge (StepCard.received e) = Some "2/2"
    /\ StepCard.decisionLabel (StepCard.received e) = "FINAL"
    /\ List.length (allSteps s) = 2%nat.
Proof.
  destruct (step_cards_show_index_over_ceiling (config 2) builtins
              (services (replyText "0.1") None (Some "Final answer."))
              question) as (s & Hs & Hcards).
  destruct (nth_error (allSteps s) 1) as [e|] eqn:He;
    [|vm_compute in Hs; injection Hs as <-; discriminate He].
  assert (Hstep : es_stepIndex e = 2%nat
                  /\ StepCard.decisionLabel (StepCard.received e) = "FINAL").
  { vm_compute in Hs. injection Hs as <-.
    vm_compute in He. injection He as <-. split; reflexivity. }
  destruct Hstep as [Hindex Hlabel].
  destruct (Hcards e (nth_error_In _ _ He)) as (Hbadge & _ & _ & Hfinal).
  destruct (Hfinal Hlabel) as [Hlast _].
  exists s, e. split; [exact Hs|]. split; [exact He|].
  rewrite Hbadge, Hindex, <- Hlast, Hindex. auto.
Defined.

Lemma telemetry_agrees_with_decision_witness :
  exists s t,
    POST (config 10) builtins
         (services (replyText "0.9") None (Some "Final answer.")) question
    = Some s
    /\ nth_error (stepLogs (console s)) 3 = Some t
    /\ tl_terminationReason t = target_reached
    /\ tl_targetReached t = true
    /\ tl_shouldContinue t = false.
Proof.
  destruct (telemetry_agrees_with_decision (config 10) builtins
              (services (replyText "0.9") None (Some "Final answer."))
              question) as (s & Hs & _ & Hrecords).
  destruct (nth_error (stepLogs (console s)) 3) as [t|] eqn:Ht;
    [|vm_compute in Hs; injection Hs as <-; discriminate Ht].
  assert (Hreason : tl_terminationReason t = target_reached).
  { vm_compute in Hs. injection Hs as <-.
    vm_compute in Ht. injection Ht as <-. reflexivity. }
  destruct (Hrecords t (nth_error_In _ _ Ht)) as (_ & _ & Htarget & _).
  destruct (Htarget Hreason) as (_ & Hflag & Hstop).
  exists s, t. auto 6.
Defined.

Lemma generation_context_extends_conversation_witness :
  exists s context,
    POST (config 2) builtins
         (services (replyText "0.1") None (Some "Final answer.")) question
    = Some s
    /\ In (2%nat, GenerateStepCall context) (calls s)
    /\ firstn 1 context = question
    /\ (List.length context <= 3)%nat.
Proof.
  destruct (generation_context_extends_conversation (config 2) builtins
              (services (replyText "0.1") None (Some "Final answer."))
              question) as (s & Hs & Hcontexts).
  destruct (nth_error (calls s) 2) as [[n [context | | ]]|] eqn:Hcall;
    try (vm_compute in Hs; injection Hs as <-; discriminate Hcall).
  assert (Hn : n = 2%nat).
  { vm_compute in Hs. injection Hs as <-.
    vm_compute in Hcall. injection Hcall as <- _. reflexivity. }
  subst n. apply nth_error_In in Hcall.
  destruct (Hcontexts _ _ Hcall) as (Hprefix & [_ Hlength] & _).
  exists s, context. auto.
Defined.

(** ** The streamed steps and their schema *)

Lemma dharmaSchema_accepts_in_range (d : DharmaEvaluation) :
  scoresInRange d ->
  dharmaSchema_parse
    (Some (JObj [ ("mindfulness", JNum (mindfulness d));
                  ("emptiness", JNum (emptiness d));
                  ("nonDuality", JNum (nonDuality d));
                  ("boundlessCare", JNum (boundlessCare d));
                  ("rationale", JStr (rationale d)) ]))
  = Some d.
Proof.
  intros ([Hm0 Hm1] & [He0 He1] & [Hn0 Hn1] & [Hb0 Hb1]).
  apply Qle_bool_iff in Hm0, Hm1, He0, He1, Hn0, Hn1, Hb0, Hb1.
  unfold dharmaSchema_parse, bind. simpl.
  rewrite Hm0, Hm1, He0, He1, Hn0, Hn1, Hb0, Hb1. simpl.
  destruct d. reflexivity.
Qed.

Section StreamedSteps.

Variable cfg : Config.
Variable js : Builtins.
Variable svc : Services.
Variable messages : list Message.

(** X19. Every step the handler writes to the stream passes
    [reasoningStepSchema]: the parse answers its title, content and next
    step, and every optional field is present - the dharma evaluation, the
    formatted score and breakdown, the step index, the ceiling and the
    server feedback. *)
Theorem streamed_steps_pass_reasoningStepSchema :
  exists s,
    POST cfg js svc messages = Some s
    /\ forall e, In (ReasoningStepData e) (dataStream s) ->
        StepSchema.reasoningStepSchema_parse (StepSchema.enrichedStepData e)
        = Some {| StepSchema.title := es_title e;
                  StepSchema.content := es_content e;
                  StepSchema.dharma := Some (es_dharma e);
                  StepSchema.dharmaScore := Some (es_dharmaScore e);
                  StepSchema.dharmaBreakdown := Some (es_dharmaBreakdown e);
                  StepSchema.stepIndex :=
                    Some (inject_Z (Z.of_nat (es_stepIndex e)));
                  StepSchema.maxSteps :=
                    Some (inject_Z (Z.of_nat (DHARMA_MAX_STEPS cfg)));
                  StepSchema.serverFeedback := Some (es_serverFeedback e);
                  StepSchema.nextStep := es_nextStep e |}.
Proof.
  destruct (POST_session_extended cfg js svc messages)
    as (st & [Hinv Hrange _] & _ & Hpost).
  destruct (synthesis_stream svc messages st) as (answer & Hstream & _).
  exists (synthesis svc messages st). split; [exact Hpost|].
  rewrite Hstream, (inv_stream _ _ _ _ _ Hinv).
  intros e Hin. apply in_app_or in Hin.
  destruct Hin as [Hin | [Hin | []]]; [|discriminate].
  apply in_map_iff in Hin. destruct Hin as (e' & He' & Hin).
  injection He' as ->.
  rewrite Forall_forall in Hrange.
  pose proof (dharmaSchema_accepts_in_range _ (Hrange e Hin)) as Hdharma.
  destruct (recorded_fields cfg js svc messages st e Hinv Hin)
    as (Hmax & _ & _).
  unfold StepSchema.reasoningStepSchema_parse, StepSchema.enrichedStepData,
    StepSchema.z_optional, bind.
  cbn [prop String.eqb Ascii.eqb Bool.eqb z_string StepSchema.z_number
       StepSchema.dharmaBreakdownSchema_parse].
  rewrite Hdharma, Hmax.
  destruct (es_dharmaBreakdown e). destruct (es_nextStep e); reflexivity.
Qed.

End StreamedSteps.

Lemma streamed_steps_pass_reasoningStepSchema_witness :
  exists s e,
    POST (config 2) builtins
         (services (replyText "0.1") None (Some "Final answer.")) question
    = Some s
    /\ nth_error (dataStream s) 0 = Some (ReasoningStepData e)
    /\ option_map StepSchema.stepIndex
         (StepSchema.reasoningStepSchema_parse (StepSchema.enrichedStepData e))
       = Some (Some 1).
Proof.
  destruct (streamed_steps_pass_reasoningStepSchema (config 2) builtins
              (services (replyText "0.1") None (Some "Final answer."))
              question) as (s & Hs & Hpass).
  destruct (nth_error (dataStream s) 0) as [[e|text]|] eqn:He;
    try (vm_compute in Hs; injection Hs as <-; discriminate He).
  exists s, e. split; [exact Hs|]. split; [exact He|].
  rewrite (Hpass e (nth_error_In _ _ He)). simpl.
  vm_compute in Hs. injection Hs as <-.
  vm_compute in He. injection He as <-. reflexivity.
Defined.

(** ** The synthesis prompt *)

Section SynthesisPrompt.

Variable cfg : Config.
Variable js : Builtins.
Variable svc : Services.
Variable messages : list Message.

(** The listing of the synthesis prompt numbers each recorded step with the
    index the step carries. *)
Lemma stepListing_by_index (st : Session) :
  Invariant cfg js svc messages st ->
  stepListing (allSteps st) = map listedStep (allSteps st).
Proof.
  intros Hinv. unfold stepListing, mapi. apply mapi_from_map.
  intros k e Hk.
  destruct (inv_steps _ _ _ _ _ Hinv _ _ Hk) as (Hi & _).
  unfold listedStep. rewrite Hi.
  replace (0 + k + 1)%nat with (S k) by lia. reflexivity.
Qed.

(** C10. When the outer [catch] logged an error for step [N], the session
    the handler returns has its step counter at [N] and [N - 1] recorded and
    streamed steps, and the prompt sent to the synthesis model reads "You
    have completed N reasoning steps:" followed by the listing of these
    [N - 1] steps, one entry per recorded step, and the closing request. *)
Theorem aborted_step_counted_but_not_listed :
  exists s,
    POST cfg js svc messages = Some s
    /\ forall N,
        In (LogStepError N) (console s) ->
        stepIndex s = N
        /\ N = S (List.length (allSteps s))
        /\ (exists answer,
              dataStream s
              = (map ReasoningStepData (allSteps s) ++ [TextData answer])%list)
        /\ exists listing,
            List.length listing = (N - 1)%nat
            /\ listing
               = map (fun e =>
                        nl ++ "Step " ++ showNat (es_stepIndex e) ++ ": "
                        ++ es_title e ++ nl ++ es_content e ++ nl)
                     (allSteps s)
            /\ In (N,
                   SynthesisCall
                     (messages
                      ++ [ {| role := "assistant";
                              content :=
                                "You have completed " ++ showNat N
                                ++ " reasoning steps:" ++ nl ++ nl
                                ++ join nl listing ++ nl ++ nl
                                ++ "Now provide a clear, concise final answer that synthesizes all of your reasoning. "
                                ++ nl
                                ++ "Be direct and actionable. This is your final response to the user." |};
                           {| role := "user";
                              content :=
                                "Please provide your final synthesized answer based on all reasoning steps." |} ]))
                  (calls s).
Proof.
  destruct (POST_session cfg js svc messages) as (st & Hinv & Hexit & Hpost).
  destruct (synthesis_loop_state svc messages st)
    as (Hidx & Hsteps & _ & Herr & _ & Hcalls).
  destruct (synthesis_stream svc messages st) as (answer & Hstream & _).
  exists (synthesis svc messages st). split; [exact Hpost|].
  intros N Hlogged. apply in_stepErrors in Hlogged.
  rewrite Herr in Hlogged.
  rewrite Hidx, Hsteps, Hstream, Hcalls, (inv_stream _ _ _ _ _ Hinv).
  destruct (inv_counter _ _ _ _ _ Hinv) as [[Hnone _] | (Hone & Hcount & _)].
  { rewrite Hnone in Hlogged. contradiction. }
  rewrite Hone in Hlogged. destruct Hlogged as [HN | []]. subst N.
  split; [reflexivity|]. split; [exact Hcount|].
  split; [exists answer; reflexivity|].
  eexists. split; [|split; [reflexivity|]].
  - rewrite length_map, Hcount. simpl. lia.
  - apply in_or_app. right. left.
    unfold synthesisMessages, synthesisPrompt.
    rewrite (stepListing_by_index st Hinv). reflexivity.
Qed.

(** X16. The prompt sent to the synthesis model reads "You have completed n
    reasoning steps:" with [n] the step counter, then lists the recorded
    steps in order, each under the index the step carries, then the closing
    request; in a session without step error the number it announces is the
    number of steps it lists. *)
Theorem synthesis_prompt_lists_steps_by_index :
  exists s,
    POST cfg js svc messages = Some s
    /\ In (stepIndex s,
           SynthesisCall
             (messages
              ++ [ {| role := "assistant";
                      content :=
                        "You have completed " ++ showNat (stepIndex s)
                        ++ " reasoning steps:" ++ nl ++ nl
                        ++ join nl
                             (map (fun e =>
                                     nl ++ "Step "
                                     ++ showNat (es_stepIndex e) ++ ": "
                                     ++ es_title e ++ nl ++ es_content e
                                     ++ nl)
                                  (allSteps s))
                        ++ nl ++ nl
                        ++ "Now provide a clear, concise final answer that synthesizes all of your reasoning. "
                        ++ nl
                        ++ "Be direct and actionable. This is your final response to the user." |};
                   {| role := "user";
                      content :=
                        "Please provide your final synthesized answer based on all reasoning steps." |} ]))
          (calls s)
    /\ (stepErrors (console s) = [] ->
        stepIndex s = List.length (allSteps s)).
Proof.
  destruct (POST_session cfg js svc messages)
    as (st & Hinv & Hexit & Hpost).
  destruct (synthesis_loop_state svc messages st)
    as (Hidx & Hsteps & _ & Herr & _ & Hcalls).
  exists (synthesis svc messages st). split; [exact Hpost|].
  rewrite Hidx, Hsteps, Herr, Hcalls. split.
  - apply in_or_app. right. left.
    unfold synthesisMessages, synthesisPrompt.
    rewrite (stepListing_by_index st Hinv). reflexivity.
  - intros Hclean.
    apply (clean_exit_steps cfg js svc messages st Hinv Hexit Hclean).
Qed.

End SynthesisPrompt.

Lemma aborted_step_counted_but_not_listed_witness :
  exists s,
    POST (config 10) builtins (servicesFailingAfterFirst (replyText "0.1"))
         question = Some s
    /\ In (LogStepError 2) (console s)
    /\ stepIndex s = 2%nat
    /\ List.length (allSteps s) = 1%nat
    /\ In (2%nat,
           SynthesisCall
             (question
              ++ [ {| role := "assistant";
                      content :=
                        "You have completed 2 reasoning steps:" ++ nl ++ nl
                        ++ nl ++ "Step 1: Analysis" ++ nl ++ "Work" ++ nl
                        ++ nl ++ nl
                        ++ "Now provide a clear, concise final answer that synthesizes all of your reasoning. "
                        ++ nl
                        ++ "Be direct and actionable. This is your final response to the user." |};
                   {| role := "user";
                      content :=
                        "Please provide your final synthesized answer based on all reasoning steps." |} ]))
          (calls s).
Proof.
  destruct (aborted_step_counted_but_not_listed (config 10) builtins
              (servicesFailingAfterFirst (replyText "0.1")) question)
    as (s & Hs & Haborted).
  assert (Hlogged : In (LogStepError 2) (console s)).
  { vm_compute in Hs. injection Hs as <-. right. left. reflexivity. }
  destruct (Haborted 2%nat Hlogged)
    as (Hcounter & Hrecorded & _ & listing & _ & Hlisting & Hcall).
  exists s. split; [exact Hs|]. split; [exact Hlogged|].
  split; [exact Hcounter|]. split; [lia|].
  assert (Hentries :
    listing = [nl ++ "Step 1: Analysis" ++ nl ++ "Work" ++ nl]).
  { rewrite Hlisting. vm_compute in Hs. injection Hs as <-. reflexivity. }
  rewrite Hentries in Hcall. exact Hcall.
Defined.

Lemma synthesis_prompt_lists_steps_by_index_witness :
  exists s,
    POST (config 2) builtins
         (services (replyText "0.1") None (Some "Final answer.")) question
    = Some s
    /\ stepIndex s = List.length (allSteps s)
    /\ List.length (allSteps s) = 2%nat.
Proof.
  destruct (synthesis_prompt_lists_steps_by_index (config 2) builtins
              (services (replyText "0.1") None (Some "Final answer."))
              question) as (s & Hs & _ & Hcount).
  assert (Hrun : stepErrors (console s) = []
                 /\ List.length (allSteps s) = 2%nat).
  { vm_compute in Hs. injection Hs as <-. split; reflexivity. }
  destruct Hrun as [Hclean Hlength].
  exists s. split; [exact Hs|]. split; [exact (Hcount Hclean) | exact Hlength].
Defined.

(** ** Double precision rounding *)

Lemma roundHalfEven_floor (q : Q) :
  Double.roundHalfEven q = Qfloor q
  \/ Double.roundHalfEven q = (Qfloor q + 1)%Z.
Proof.
  unfold Double.roundHalfEven.
  destruct (Qcompare (q - inject_Z (Qfloor q)) (1 # 2));
    [destruct (Z.even (Qfloor q))| |]; auto.
Qed.

Lemma floor_bounds (q : Q) :
  inject_Z (Qfloor q) <= q /\ q < inject_Z (Qfloor q) + 1.
Proof.
  split; [apply Qfloor_le|].
  pose proof (Qlt_floor q) as H. rewrite inject_Z_plus in H. exact H.
Qed.

(** The rounded value is within one half of the exact one. *)
Lemma roundHalfEven_error (q : Q) :
  q - (1 # 2) <= inject_Z (Double.roundHalfEven q) <= q + (1 # 2).
Proof.
  destruct (floor_bounds q) as [Hlo Hhi].
  unfold Double.roundHalfEven.
  destruct (Qcompare_spec (q - inject_Z (Qfloor q)) (1 # 2)) as [H | H | H];
    [destruct (Z.even (Qfloor q))| |];
    rewrite ?inject_Z_plus; change (inject_Z 1) with 1; lra.
Qed.

Lemma roundHalfEven_mono (a b : Q) :
  a <= b -> (Double.roundHalfEven a <= Double.roundHalfEven b)%Z.
Proof.
  intros Hab.
  pose proof (Qfloor_resp_le a b Hab) as Hfloor.
  destruct (Z.eq_dec (Qfloor a) (Qfloor b)) as [Heq | Hne].
  - unfold Double.roundHalfEven. rewrite Heq.
    destruct (Qcompare_spec (a - inject_Z (Qfloor b)) (1 # 2))
      as [Ha | Ha | Ha];
      destruct (Qcompare_spec (b - inject_Z (Qfloor b)) (1 # 2))
        as [Hb | Hb | Hb];
      try (exfalso; lra);
      destruct (Z.even (Qfloor b)); lia.
  - destruct (roundHalfEven_floor a) as [-> | ->];
      destruct (roundHalfEven_floor b) as [-> | ->]; lia.
Qed.

Lemma roundHalfEven_integer (z : Z) :
  Double.roundHalfEven (inject_Z z) = z.
Proof.
  unfold Double.roundHalfEven. rewrite Qfloor_Z.
  destruct (Qcompare_spec (inject_Z z - inject_Z z) (1 # 2)) as [H | H | H];
    [exfalso; lra | reflexivity | exfalso; lra].
Qed.

Lemma spacing_positive (F : Z) : (0 < Double.spacing F)%Z.
Proof. unfold Double.spacing. apply Z.pow_pos_nonneg; lia. Qed.

Lemma next_power_above (F : Z) :
  (0 <= F -> F + 1 <= 2 ^ (Z.log2 F + 1))%Z.
Proof.
  intros HF. destruct (Z.eq_dec F 0) as [-> | Hne].
  - simpl. lia.
  - pose proof (Z.log2_spec F) as Hspec.
    replace (Z.succ (Z.log2 F)) with (Z.log2 F + 1)%Z in Hspec by lia.
    lia.
Qed.

(** [roundUnits] is monotone on the non-negative values. *)
Lemma roundUnits_mono (x y : Q) :
  0 <= x -> x <= y -> (Double.roundUnits x <= Double.roundUnits y)%Z.
Proof.
  intros Hx Hxy. unfold Double.roundUnits.
  assert (HFx : (0 <= Qfloor x)%Z).
  { rewrite <- (Qfloor_Z 0). apply Qfloor_resp_le. exact Hx. }
  pose proof (Qfloor_resp_le x y Hxy) as HF.
  destruct (floor_bounds x) as [_ Hxhi].
  destruct (floor_bounds y) as [Hylo _].
  unfold Double.spacing.
  set (kx := Z.max 0 (Z.log2 (Qfloor x) - 52)).
  set (ky := Z.max 0 (Z.log2 (Qfloor y) - 52)).
  assert (Hk : (kx <= ky)%Z).
  { pose proof (Z.log2_le_mono _ _ HF). unfold kx, ky. lia. }
  assert (Hgx : (0 < 2 ^ kx)%Z) by (apply Z.pow_pos_nonneg; unfold kx; lia).
  assert (Hgy : (0 < 2 ^ ky)%Z) by (apply Z.pow_pos_nonneg; unfold ky; lia).
  assert (HgxQ : 0 < inject_Z (2 ^ kx)).
  { rewrite <- (Zlt_Qlt 0). exact Hgx. }
  assert (HgyQ : 0 < inject_Z (2 ^ ky)).
  { rewrite <- (Zlt_Qlt 0). exact Hgy. }
  destruct (Z.eq_dec kx ky) as [Heq | Hne].
  - rewrite <- Heq. apply Z.mul_le_mono_nonneg_r; [lia|].
    apply roundHalfEven_mono.
    apply Qmult_le_compat_r; [exact Hxy|].
    apply Qlt_le_weak, Qinv_lt_0_compat. exact HgxQ.
  - assert (Hlt : (kx + 1 <= ky)%Z) by lia.
    (* x lies below 2^(kx + 53) units *)
    assert (Hupper :
      (Double.roundHalfEven (x / inject_Z (2 ^ kx)) <= 2 ^ 53)%Z).
    { rewrite <- (roundHalfEven_integer (2 ^ 53)).
      apply roundHalfEven_mono.
      apply Qle_shift_div_r; [exact HgxQ|].
      rewrite <- inject_Z_mult, <- Z.pow_add_r by (unfold kx; lia).
      apply Qle_trans with (inject_Z (Qfloor x + 1)).
      - rewrite inject_Z_plus. apply Qlt_le_weak. exact Hxhi.
      - rewrite <- Zle_Qle.
        apply Z.le_trans with (2 ^ (Z.log2 (Qfloor x) + 1))%Z.
        + apply next_power_above. exact HFx.
        + apply Z.pow_le_mono_r; unfold kx; lia. }
    (* y lies at or above 2^(ky + 52) units *)
    assert (Hky : ky = (Z.log2 (Qfloor y) - 52)%Z) by (unfold kx, ky in *; lia).
    assert (HFy : (0 < Qfloor y)%Z).
    { destruct (Z.eq_dec (Qfloor y) 0) as [Hzero | Hnz]; [|lia].
      rewrite Hzero in Hky. simpl in Hky. unfold kx in *. lia. }
    assert (Hlower :
      (2 ^ 52 <= Double.roundHalfEven (y / inject_Z (2 ^ ky)))%Z).
    { rewrite <- (roundHalfEven_integer (2 ^ 52)).
      apply roundHalfEven_mono.
      apply Qle_shift_div_l; [exact HgyQ|].
      rewrite <- inject_Z_mult, <- Z.pow_add_r by (unfold ky; lia).
      apply Qle_trans with (inject_Z (Qfloor y)); [|exact Hylo].
      rewrite <- Zle_Qle.
      replace (52 + ky)%Z with (Z.log2 (Qfloor y)) by lia.
      apply (Z.log2_spec _ HFy). }
    apply Z.le_trans with (2 ^ 53 * 2 ^ kx)%Z.
    + apply Z.mul_le_mono_nonneg_r; [lia | exact Hupper].
    + apply Z.le_trans with (2 ^ 52 * 2 ^ ky)%Z.
      * rewrite <- !Z.pow_add_r by (unfold kx, ky; lia).
        apply Z.pow_le_mono_r; unfold kx; lia.
      * apply Z.mul_le_mono_nonneg_r; [lia | exact Hlower].
Qed.

Lemma units_positive : 0 < inject_Z Double.unitsPerOne.
Proof. vm_compute. reflexivity. Qed.

Lemma round_nonneg (q : Q) :
  0 <= q ->
  Double.round q
  = inject_Z (Double.roundUnits (q * inject_Z Double.unitsPerOne))
    / inject_Z Double.unitsPerOne.
Proof.
  intros Hq. unfold Double.round.
  destruct (Qcompare_spec q 0) as [H | H | H];
    [reflexivity | exfalso; lra | reflexivity].
Qed.

(** [round] is monotone on the non-negative values. *)
Lemma round_mono (x y : Q) :
  0 <= x -> x <= y -> Double.round x <= Double.round y.
Proof.
  intros Hx Hxy.
  rewrite (round_nonneg x Hx), (round_nonneg y) by lra.
  pose proof units_positive as HU.
  apply Qmult_le_compat_r;
    [|apply Qlt_le_weak, Qinv_lt_0_compat; exact HU].
  rewrite <- Zle_Qle. apply roundUnits_mono.
  - apply Qmult_le_0_compat; [exact Hx | apply Qlt_le_weak; exact HU].
  - apply Qmult_le_compat_r; [exact Hxy | apply Qlt_le_weak; exact HU].
Qed.

(** The integers 0 to 4 are doubles. *)
Lemma round_small_integers :
  Double.round 0 == 0 /\ Double.round 1 == 1 /\ Double.round 2 == 2
  /\ Double.round 3 == 3 /\ Double.round 4 == 4.
Proof. repeat split; vm_compute; reflexivity. Qed.

(** Between 0 and 4 the nearest double is within 2^-51. *)
Lemma round_error (q : Q) :
  0 <= q <= 4 ->
  q - (1 # 2 ^ 51) <= Double.round q <= q + (1 # 2 ^ 51).
Proof.
  intros [Hq0 Hq4].
  rewrite (round_nonneg q Hq0).
  pose proof units_positive as HU.
  unfold Double.roundUnits.
  set (t := q * inject_Z Double.unitsPerOne).
  assert (Ht0 : 0 <= t).
  { apply Qmult_le_0_compat; [exact Hq0 | apply Qlt_le_weak; exact HU]. }
  assert (HF0 : (0 <= Qfloor t)%Z).
  { rewrite <- (Qfloor_Z 0). apply Qfloor_resp_le. exact Ht0. }
  assert (HF : (Qfloor t <= 2 ^ 1076)%Z).
  { rewrite <- (Qfloor_Z (2 ^ 1076)). apply Qfloor_resp_le.
    apply Qle_trans with (4 * inject_Z Double.unitsPerOne).
    - apply Qmult_le_compat_r; [exact Hq4 | apply Qlt_le_weak; exact HU].
    - vm_compute. discriminate. }
  assert (Hg : (1 <= Double.spacing (Qfloor t) <= 2 ^ 1024)%Z).
  { pose proof (spacing_positive (Qfloor t)).
    split; [lia|]. unfold Double.spacing.
    apply Z.pow_le_mono_r; [lia|].
    pose proof (Z.log2_le_mono _ _ HF) as Hlog.
    rewrite Z.log2_pow2 in Hlog by lia. lia. }
  pose proof (roundHalfEven_error
                (t / inject_Z (Double.spacing (Qfloor t)))) as Herr.
  rewrite inject_Z_mult.
  assert (HG1 : 1 <= inject_Z (Double.spacing (Qfloor t))).
  { rewrite <- (Zle_Qle 1). apply Hg. }
  assert (HG2 : inject_Z (Double.spacing (Qfloor t))
                <= inject_Z (2 ^ 1024)).
  { rewrite <- Zle_Qle. apply Hg. }
  assert (Heps : (1 # 2 ^ 51) * inject_Z Double.unitsPerOne
                 == inject_Z (2 ^ 1024) * (1 # 2)).
  { vm_compute. reflexivity. }
  assert (HtU : t == q * inject_Z Double.unitsPerOne) by reflexivity.
  clearbody t.
  set (G := inject_Z (Double.spacing (Qfloor t))) in *.
  set (R := inject_Z (Double.roundHalfEven (t / G))) in *.
  set (Gmax := inject_Z (2 ^ 1024)) in *.
  set (U := inject_Z Double.unitsPerOne) in *.
  clearbody G R Gmax U.
  assert (HX : t - G * (1 # 2) <= R * G <= t + G * (1 # 2)).
  { destruct Herr as [Hl Hr]. split.
    - setoid_replace (t - G * (1 # 2)) with ((t / G - (1 # 2)) * G)
        by (field; lra).
      apply Qmult_le_compat_r; lra.
    - setoid_replace (t + G * (1 # 2)) with ((t / G + (1 # 2)) * G)
        by (field; lra).
      apply Qmult_le_compat_r; lra. }
  destruct HX as [HXl HXr]. split.
  - apply Qle_shift_div_l; [exact HU|].
    setoid_replace ((q - (1 # 2 ^ 51)) * U)
      with (q * U - (1 # 2 ^ 51) * U) by ring.
    lra.
  - apply Qle_shift_div_r; [exact HU|].
    setoid_replace ((q + (1 # 2 ^ 51)) * U)
      with (q * U + (1 # 2 ^ 51) * U) by ring.
    lra.
Qed.

(** The double-precision mean of sub-scores in [0,1] lies in [0,1], within
    2^-50 of the exact mean. *)
Lemma double_mean_bounds (s : DharmaScores) :
  0 <= s_mindfulness s <= 1 ->
  0 <= s_emptiness s <= 1 ->
  0 <= s_nonDuality s <= 1 ->
  0 <= s_boundlessCare s <= 1 ->
  0 <= Double.mean s <= 1
  /\ - (1 # 2 ^ 50) <= Double.mean s - Dharma.mean s <= 1 # 2 ^ 50.
Proof.
  intros Hm He Hn Hb.
  destruct round_small_integers as (H0 & H1 & H2 & H3 & H4).
  unfold Double.mean, Double.div, Double.add, Dharma.mean.
  set (a := s_mindfulness s) in *. set (b := s_emptiness s) in *.
  set (c := s_nonDuality s) in *. set (d := s_boundlessCare s) in *.
  clearbody a b c d.
  assert (Hs1 : 0 <= Double.round (a + b) <= 2).
  { split; [rewrite <- H0 | rewrite <- H2]; apply round_mono; lra. }
  pose proof (round_error (a + b)) as He1.
  set (s1 := Double.round (a + b)) in *. clearbody s1.
  assert (Hs2 : 0 <= Double.round (s1 + c) <= 3).
  { split; [rewrite <- H0 | rewrite <- H3]; apply round_mono; lra. }
  pose proof (round_error (s1 + c)) as He2.
  set (s2 := Double.round (s1 + c)) in *. clearbody s2.
  assert (Hs3 : 0 <= Double.round (s2 + d) <= 4).
  { split; [rewrite <- H0 | rewrite <- H4]; apply round_mono; lra. }
  pose proof (round_error (s2 + d)) as He3.
  set (s3 := Double.round (s2 + d)) in *. clearbody s3.
  unfold Qdiv. change (/ 4) with (1 # 4).
  assert (Hr : 0 <= Double.round (s3 * (1 # 4)) <= 1).
  { split; [rewrite <- H0 | rewrite <- H1]; apply round_mono; lra. }
  pose proof (round_error (s3 * (1 # 4))) as He4.
  set (r := Double.round (s3 * (1 # 4))) in *. clearbody r.
  assert (Heps : (1 # 2 ^ 50) == 2 * (1 # 2 ^ 51)) by reflexivity.
  split; [exact Hr|].
  rewrite Heps. lra.
Qed.

(** C8 (amended). On sub-scores in [0,1], the aggregate computed in double
    precision - the three additions and the division by four, each rounded
    to the nearest double - lies in [0,1] and within 2^-50 of the exact
    arithmetic mean of the sub-scores. *)
Theorem double_mean_in_unit_interval_near_exact_mean (s : DharmaScores) :
  0 <= s_mindfulness s <= 1 ->
  0 <= s_emptiness s <= 1 ->
  0 <= s_nonDuality s <= 1 ->
  0 <= s_boundlessCare s <= 1 ->
  0 <= Double.mean s <= 1
  /\ - (1 # 2 ^ 50)
     <= Double.mean s
        - (s_mindfulness s + s_emptiness s + s_nonDuality s
           + s_boundlessCare s) / 4
     <= 1 # 2 ^ 50.
Proof.
  intros Hm He Hn Hb.
  destruct (double_mean_bounds s Hm He Hn Hb) as [Hrange Hnear].
  split; [exact Hrange|]. unfold Dharma.mean in Hnear. exact Hnear.
Qed.

Lemma pointSixToPointNine_in_range :
  0 <= s_mindfulness pointSixToPointNine <= 1
  /\ 0 <= s_emptiness pointSixToPointNine <= 1
  /\ 0 <= s_nonDuality pointSixToPointNine <= 1
  /\ 0 <= s_boundlessCare pointSixToPointNine <= 1.
Proof. repeat split; vm_compute; discriminate. Qed.

(** On the doubles written 0.6, 0.7, 0.8 and 0.9 the exact mean is 3/4 and
    the code computes the double below it, 3/4 - 2^-53
    (0.7499999999999999). *)
Lemma double_mean_differs_from_exact_mean : ~ aggregateIsExactMean.
Proof.
  intros Hexact.
  destruct pointSixToPointNine_in_range as (Hm & He & Hn & Hb).
  specialize (Hexact pointSixToPointNine Hm He Hn Hb).
  vm_compute in Hexact. discriminate Hexact.
Qed.

Lemma double_mean_in_unit_interval_near_exact_mean_witness :
  0 <= Double.mean pointSixToPointNine <= 1
  /\ Double.mean pointSixToPointNine == (3 # 4) - (1 # 2 ^ 53)
  /\ (s_mindfulness pointSixToPointNine + s_emptiness pointSixToPointNine
      + s_nonDuality pointSixToPointNine
      + s_boundlessCare pointSixToPointNine) / 4 == 3 # 4.
Proof.
  destruct pointSixToPointNine_in_range as (Hm & He & Hn & Hb).
  destruct (double_mean_in_unit_interval_near_exact_mean
              pointSixToPointNine Hm He Hn Hb) as [Hrange _].
  split; [exact Hrange|]. split; vm_compute; reflexivity.
Defined.

(** The primitive binary64 arithmetic agrees with [Double] on the doubles
    written 0.6, 0.7, 0.8 and 0.9 and on their mean. *)
Example double_mean_agrees_with_binary64 :
  let a := Binary64.binary64 5404319552844595 (-53) in
  let b := Binary64.binary64 6305039478318694 (-53) in
  let c := Binary64.binary64 7205759403792794 (-53) in
  let d := Binary64.binary64 8106479329266893 (-53) in
  map Binary64.valueOf [a; b; c; d; Binary64.mean a b c d]
  = map (fun q => Some (Qred q))
        [ s_mindfulness pointSixToPointNine;
          s_emptiness pointSixToPointNine;
          s_nonDuality pointSixToPointNine;
          s_boundlessCare pointSixToPointNine;
          Double.mean pointSixToPointNine ].
Proof. vm_compute. reflexivity. Qed.
